(** * Sales analytics dashboard (code/dashboard.py): model and properties

    The dashboard is one linear script: load -> filter -> aggregate -> render.
    This development embeds the data transformations of the script (the
    loader, the boolean-mask filter, the key metrics and the seven chart
    aggregations) and proves the properties stated about them.

    Modelling conventions
    - A data frame is the list of its rows, in index order.  A column is the
      list obtained by projecting every row.
    - [float64] columns hold exact rationals ([Qc], canonical fractions, so
      that equal numbers are equal terms); a missing value (NaN) is [None]
      where the library can produce one.  Rounding is not modelled.
    - [int64] columns hold integers; their sums are kept in 64 bits and wrap
      around.
    - Library calls of pandas are written as small list functions named
      after the call they stand for. *)

From Stdlib Require Import ZArith QArith Qcanon Reals Qreals Lra String Ascii List Lia.
From stdpp Require Import base decidable option list numbers strings sorting gmap.

Local Open Scope Z_scope.

(** ** Timestamps, dates and monthly periods *)

(** A pandas [Timestamp] (second resolution is enough for this script). *)
Record datetime := mkDatetime {
  year : Z; month : Z; day : Z; hour : Z; minute : Z; second : Z
}.

(** A [datetime.date], as produced by [.dt.date] and by the sidebar's
    date input. *)
Record date := mkDate { d_year : Z; d_month : Z; d_day : Z }.

(** A monthly [Period], as produced by [.dt.to_period('M')]. *)
Record period := mkPeriod { p_year : Z; p_month : Z }.

#[global] Instance datetime_eq_dec : EqDecision datetime.
Proof. solve_decision. Defined.
#[global] Instance date_eq_dec : EqDecision date.
Proof. solve_decision. Defined.
#[global] Instance period_eq_dec : EqDecision period.
Proof. solve_decision. Defined.

(** [.dt.date]: the timestamp truncated to its calendar day. *)
Definition dt_date (t : datetime) : date := mkDate (year t) (month t) (day t).

(** [.dt.to_period('M')]: the calendar month of the timestamp. *)
Definition dt_to_period_M (t : datetime) : period := mkPeriod (year t) (month t).

(** [.dt.hour] *)
Definition dt_hour (t : datetime) : Z := hour t.

(** Python compares dates as the triples (year, month, day). *)
Definition date_leb (a b : date) : bool :=
  (d_year a <? d_year b)
  || ((d_year a =? d_year b)
      && ((d_month a <? d_month b)
          || ((d_month a =? d_month b) && (d_day a <=? d_day b)))).

Definition date_geb (a b : date) : bool := date_leb b a.
Definition date_ltb (a b : date) : bool := date_leb a b && negb (date_leb b a).

(** Periods are ordered chronologically. *)
Definition period_ltb (a b : period) : bool :=
  (p_year a <? p_year b) || ((p_year a =? p_year b) && (p_month a <? p_month b)).

(** ** Rows *)

(** One line item.  The record is parametric in the type of the
    [InvoiceDate] cell (text as read from the file, a timestamp once parsed)
    and of the derived [TotalPrice] cell (absent, [unit], until the loader
    adds the column).  [Extra] holds the cells of any further column of the
    file (for instance a stock code); they are carried along unchanged and
    take part in row equality. *)
Record SalesRecord (D T : Type) := mkRecord {
  InvoiceNo : string;
  Extra : list string;
  Description : string;
  Quantity : Z;
  InvoiceDate : D;
  UnitPrice : Qc;
  CustomerID : option Z;
  Country : string;
  TotalPrice : T
}.
Arguments mkRecord {D T}.
Arguments InvoiceNo {D T}.
Arguments Extra {D T}.
Arguments Description {D T}.
Arguments Quantity {D T}.
Arguments InvoiceDate {D T}.
Arguments UnitPrice {D T}.
Arguments CustomerID {D T}.
Arguments Country {D T}.
Arguments TotalPrice {D T}.

#[global] Instance SalesRecord_eq_dec {D T} `{EqDecision D, EqDecision T} :
  EqDecision (SalesRecord D T).
Proof. solve_decision. Defined.

(** Rows as read by [pd.read_csv]. *)
Definition RawRow := SalesRecord string unit.
(** Rows of the loaded table. *)
Definition Row := SalesRecord datetime Qc.

(** [df['InvoiceDate'] = col], one cell. *)
Definition set_InvoiceDate {D D' T} (r : SalesRecord D T) (d : D') : SalesRecord D' T :=
  mkRecord (InvoiceNo r) (Extra r) (Description r) (Quantity r) d
           (UnitPrice r) (CustomerID r) (Country r) (TotalPrice r).

(** [df['TotalPrice'] = col], one cell. *)
Definition set_TotalPrice {D T T'} (r : SalesRecord D T) (t : T') : SalesRecord D T' :=
  mkRecord (InvoiceNo r) (Extra r) (Description r) (Quantity r) (InvoiceDate r)
           (UnitPrice r) (CustomerID r) (Country r) t.

(** ** Data-frame primitives *)

Section Frames.
Context {A : Type}.

(** [df[mask]]: boolean indexing.  The masks of the script are always
    computed from the frame they index, so both have the same length. *)
Fixpoint loc_mask (df : list A) (mask : list bool) : list A :=
  match df, mask with
  | r :: df', b :: mask' =>
      if b then r :: loc_mask df' mask' else loc_mask df' mask'
  | _, _ => []
  end.

(** [df[name] = col]: column assignment, row by row. *)
Definition assign {B C} (set : A -> B -> C) (df : list A) (col : list B) : list C :=
  zip_with set df col.

Context `{EqDecision A}.

(** [df.drop_duplicates()]: keep the first occurrence of every row. *)
Fixpoint drop_duplicates_from (seen : list A) (df : list A) : list A :=
  match df with
  | [] => []
  | r :: df' =>
      if decide (r ∈ seen) then drop_duplicates_from seen df'
      else r :: drop_duplicates_from (r :: seen) df'
  end.

Definition drop_duplicates (df : list A) : list A := drop_duplicates_from [] df.
End Frames.

(** [mask1 & mask2] on boolean series. *)
Definition mask_and (m1 m2 : list bool) : list bool := zip_with andb m1 m2.

(** ** Loader *)

Section Loader.
(** [pd.to_datetime] on one cell; [None] when the text is not a date, in
    which case the call raises. *)
Variable to_datetime : string -> option datetime.

(** [df.dropna(subset=['CustomerID'])] *)
Definition dropna_CustomerID {D T} (df : list (SalesRecord D T)) :=
  loc_mask df (map (λ c, bool_decide (c ≠ None)) (map CustomerID df)).

(** The body of [load_data], statement by statement; [None] stands for
    the exception of [pd.to_datetime]. *)
Definition load_data (raw : list RawRow) : option (list Row) :=
  let df := dropna_CustomerID raw in
  let df := loc_mask df (map (λ q, 0 <? q) (map Quantity df)) in
  dates ← mapM to_datetime (map InvoiceDate df);
  let df := assign set_InvoiceDate df dates in
  let df := assign set_TotalPrice df
              (zip_with (λ q p, Qc_of_Z q * p)%Qc (map Quantity df) (map UnitPrice df)) in
  Some (drop_duplicates df).
End Loader.

(** ** Filter *)

(** Lines 89-91: the boolean mask.  [selected_country] is the text chosen in
    the sidebar; the entry ["All"] adds no country test. *)
Definition mask (df : list Row) (start stop : date)
    (selected_country : string) : list bool :=
  let dates := map dt_date (map InvoiceDate df) in
  let mask := mask_and (map (λ d, date_geb d start) dates)
                       (map (λ d, date_leb d stop) dates) in
  if decide (selected_country ≠ "All"%string)
  then mask_and mask (map (λ c, bool_decide (c = selected_country)) (map Country df))
  else mask.

(** [.copy()] of a frame seen as a value. *)
Definition frame_copy {A} (df : list A) : list A := df.

(** Lines 89-92.  [date_range] is the sequence returned by the date input;
    [None] stands for the [IndexError] of [date_range[0]] or
    [date_range[1]]. *)
Definition apply_filters (df : list Row) (date_range : list date)
    (selected_country : string) : option (list Row) :=
  start ← date_range !! 0%nat;
  stop ← date_range !! 1%nat;
  Some (frame_copy (loc_mask df (mask df start stop selected_country))).

(** ** Key metrics *)

(** [Series.sum()] on a float column. *)
Definition sum_Qc (col : list Qc) : Qc := foldr Qcplus (Qc_of_Z 0) col.

(** The value a 64-bit signed integer takes when a result leaves its range
    (two's complement). *)
Definition wrap_int64 (z : Z) : Z := (z + 2 ^ 63) mod 2 ^ 64 - 2 ^ 63.

(** [Series.sum()] on an [int64] column: the running total is a 64-bit
    integer and wraps around silently. *)
Definition sum_int64 (col : list Z) : Z :=
  foldl (λ acc x, wrap_int64 (acc + x)) 0 col.

(** [Series.nunique()]: the number of distinct values. *)
Definition nunique {A} `{EqDecision A} (col : list A) : Z :=
  Z.of_nat (length (drop_duplicates col)).

(** [Series.nunique()] on a nullable column: missing values are not
    counted. *)
Definition nunique_dropna {A} `{EqDecision A} (col : list (option A)) : Z :=
  nunique (omap (λ c, c) col).

Definition total_sales (filtered_df : list Row) : Qc :=
  sum_Qc (map TotalPrice filtered_df).
Definition total_orders (filtered_df : list Row) : Z :=
  nunique (map InvoiceNo filtered_df).
Definition total_customers (filtered_df : list Row) : Z :=
  nunique_dropna (map CustomerID filtered_df).

(** [a / n] for a float [a] and an integer [n]; [None] is the division by
    zero. *)
Definition true_div (a : Qc) (n : Z) : option Qc :=
  if decide (n = 0) then None else Some (a / Qc_of_Z n)%Qc.

(** Line 102: [total_sales / total_orders if total_orders > 0 else 0]. *)
Definition avg_order_value (filtered_df : list Row) : option Qc :=
  if 0 <? total_orders filtered_df
  then true_div (total_sales filtered_df) (total_orders filtered_df)
  else Some (Qc_of_Z 0).

(** ** Grouping and sorting *)

(** The relation of a boolean comparison. *)
Definition rel_of {K} (leb : K → K → bool) : relation K := λ a b, leb a b = true.

#[global] Instance rel_of_dec {K} (leb : K → K → bool) : RelDecision (rel_of leb).
Proof. intros a b. unfold rel_of. apply _. Defined.

(** Order of the entries of a series by their value. *)
Definition by_value {K V} (R : relation V) : relation (K * V) := λ a b, R a.2 b.2.

#[global] Instance by_value_dec {K V} (R : relation V) `{!RelDecision R} :
  RelDecision (by_value (K:=K) R).
Proof. intros a b. unfold by_value. apply _. Defined.

Section GroupBy.
Context {A K : Type} `{EqDecision K}.
(** The order of the keys. *)
Variable leb : K → K → bool.

(** [df.groupby(key)]: one group per distinct key, keys ascending
    ([sort=True]), rows of a group in frame order.  Rows whose key is
    missing belong to no group ([dropna=True]). *)
Definition groupby (key : A → option K) (df : list A) : list (K * list A) :=
  map (λ k, (k, filter (λ r, key r = Some k) df))
      (merge_sort (rel_of leb) (drop_duplicates (omap key df))).

(** [groupby(key)[val].agg()]: a series indexed by the keys. *)
Definition agg {V} (f : list A → V) (g : list (K * list A)) : list (K * V) :=
  map (λ kg, (kg.1, f kg.2)) g.
End GroupBy.

Section StableSort.
Context {A : Type} (R : relation A) `{!RelDecision R}.

(** Insertion before the first entry that does not come before [x]. *)
Fixpoint insert_sorted (x : A) (l : list A) : list A :=
  match l with
  | [] => [x]
  | y :: l' => if decide (R x y) then x :: y :: l' else y :: insert_sorted x l'
  end.

(** A stable sort: entries that compare equal keep the order they had. *)
Definition stable_sort (l : list A) : list A := foldr insert_sorted [] l.
End StableSort.

(** [Series.sort_values(ascending=True)] on a series of index/value
    entries; entries of equal value keep their order.  With
    [ascending=False] pandas sorts the reversed series in ascending order
    and reverses the result, so entries of equal value keep their order
    there too. *)
Definition sort_values_asc {K V} (R : relation V) `{!RelDecision R}
    (s : list (K * V)) : list (K * V) :=
  stable_sort (by_value R) s.
Definition sort_values_desc {K V} (R : relation V) `{!RelDecision R}
    (s : list (K * V)) : list (K * V) :=
  reverse (stable_sort (by_value R) (reverse s)).

(** [.head(n)] and [.tail(n)] *)
Definition head_n {A} (n : nat) (l : list A) : list A := take n l.
Definition tail_n {A} (n : nat) (l : list A) : list A := drop (length l - n) l.

Definition period_leb (a b : period) : bool := period_ltb a b || bool_decide (a = b).

(** Order of the two-level keys of [groupby([month, 'Country'])]. *)
Definition month_country_leb (a b : period * string) : bool :=
  period_ltb a.1 b.1 || (bool_decide (a.1 = b.1) && String.leb a.2 b.2).

(** ** Chart aggregations *)

(** A column taken out of a frame, [df[label]]: its label and its cell in
    every row.  Element-wise accessors such as [.dt.to_period('M')] keep the
    label. *)
Record Column (A V : Type) := mkColumn { c_name : string; c_cell : A → V }.
Arguments mkColumn {A V}.
Arguments c_name {A V}.
Arguments c_cell {A V}.

Definition col_map {A V W} (f : V → W) (c : Column A V) : Column A W :=
  mkColumn (c_name c) (λ r, f (c_cell c r)).

(** A series with its names: the name of its index, its own name and its
    index/value entries.  Names are tracked where the script uses them (the
    export); elsewhere a series is the list of its entries. *)
Record Series (K V : Type) := mkSeries {
  index_name : option string;
  name : option string;
  items : list (K * V)
}.
Arguments mkSeries {K V}.
Arguments index_name {K V}.
Arguments name {K V}.
Arguments items {K V}.

(** [df.groupby(key)[val].sum()] for a key given as a series of the frame:
    the index of the result takes the name of the key, the result the name
    of the summed column. *)
Definition groupby_sum {A K} `{EqDecision K} (leb : K → K → bool)
    (key : Column A K) (val : Column A Qc) (df : list A) : Series K Qc :=
  mkSeries (Some (c_name key)) (Some (c_name val))
    (agg (λ g, sum_Qc (map (c_cell val) g))
         (groupby leb (λ r, Some (c_cell key r)) df)).

Definition col_InvoiceDate : Column Row datetime := mkColumn "InvoiceDate" InvoiceDate.
Definition col_TotalPrice : Column Row Qc := mkColumn "TotalPrice" TotalPrice.

(** Line 127. *)
Definition monthly_sales (filtered_df : list Row) : Series period Qc :=
  groupby_sum period_leb (col_map dt_to_period_M col_InvoiceDate) col_TotalPrice
    filtered_df.

(** [str(period)] for a monthly period: [YYYY-MM]. *)
Definition digit (n : Z) : string :=
  String (ascii_of_nat (48 + Z.to_nat (n mod 10))) EmptyString.
Definition period_str (p : period) : string :=
  (digit (p_year p / 1000) ++ digit (p_year p / 100) ++ digit (p_year p / 10)
   ++ digit (p_year p) ++ "-" ++ digit (p_month p / 10) ++ digit (p_month p))%string.

(** Lines 145-146: the index of the ten countries of largest revenue,
    largest first. *)
Definition country_sales (filtered_df : list Row) : list (string * Qc) :=
  agg (λ g, sum_Qc (map TotalPrice g))
      (groupby String.leb (λ r, Some (Country r)) filtered_df).
Definition top_countries_series (filtered_df : list Row) : list (string * Qc) :=
  head_n 10 (sort_values_desc Qcle (country_sales filtered_df)).
Definition top_countries (filtered_df : list Row) : list string :=
  map fst (top_countries_series filtered_df).

(** Lines 141-147: rows [(Month, Country, Revenue)] of the country trend,
    restricted to the top countries. *)
Definition monthly_country_sales (filtered_df : list Row)
    : list (string * string * Qc) :=
  let grouped :=
    agg (λ g, sum_Qc (map TotalPrice g))
        (groupby month_country_leb
           (λ r, Some (dt_to_period_M (InvoiceDate r), Country r)) filtered_df) in
  let frame := map (λ e, (period_str e.1.1, e.1.2, e.2)) grouped in
  let top := top_countries filtered_df in
  loc_mask frame (map (λ c, bool_decide (c ∈ top)) (map (λ row, row.1.2) frame)).

(** Lines 161-162.  The [Hour] column is computed from [InvoiceDate]. *)
Definition hourly_sales (filtered_df : list Row) : list (Z * Qc) :=
  agg (λ g, sum_Qc (map TotalPrice g))
      (groupby Z.leb (λ r, Some (dt_hour (InvoiceDate r))) filtered_df).

(** Lines 179-182. *)
Definition top_products_data (filtered_df : list Row) : list (string * Z) :=
  tail_n 10 (sort_values_asc Z.le
    (agg (λ g, sum_int64 (map Quantity g))
         (groupby String.leb (λ r, Some (Description r)) filtered_df))).

(** Lines 194-197. *)
Definition top_countries_data (filtered_df : list Row) : list (string * Qc) :=
  tail_n 10 (sort_values_asc Qcle (country_sales filtered_df)).

(** Line 215. *)
Definition customer_orders (filtered_df : list Row) : list (Z * Z) :=
  agg (λ g, nunique (map InvoiceNo g))
      (groupby Z.leb CustomerID filtered_df).

(** ** Export (lines 136-137) *)

(** A frame with an index and float columns. *)
Record IndexedFrame (K : Type) := mkIndexedFrame {
  f_index_name : option string;
  f_columns : list string;
  f_rows : list (K * list Qc)
}.
Arguments mkIndexedFrame {K}.
Arguments f_index_name {K}.
Arguments f_columns {K}.
Arguments f_rows {K}.

(** [Series.to_frame(name=...)]: a one-column frame over the same index. *)
Definition to_frame {K} (label : string) (s : Series K Qc) : IndexedFrame K :=
  mkIndexedFrame (index_name s) [label] (map (λ e, (e.1, [e.2])) (items s)).

Section CsvExport.
Context {K : Type}.
(** Text of an index entry, text of a float, and the line terminator of
    the platform. *)
Variable index_str : K → string.
Variable float_repr : Qc → string.
Variable lineterminator : string.

(** The header record of [to_csv(index=True)]: the label of the index (its
    name, empty when it has none), then the column labels. *)
Definition csv_header (f : IndexedFrame K) : list string :=
  default ""%string (f_index_name f) :: f_columns f.

(** The records of [to_csv(index=True)]: the header, then one record per
    row. *)
Definition csv_records (f : IndexedFrame K) : list (list string) :=
  csv_header f :: map (λ row, index_str row.1 :: map float_repr row.2) (f_rows f).

Definition csv_line (fields : list string) : string :=
  (String.concat "," fields ++ lineterminator)%string.

(** [DataFrame.to_csv(index=True)] *)
Definition to_csv (f : IndexedFrame K) : string :=
  String.concat "" (map csv_line (csv_records f)).
End CsvExport.

(** [str.encode('utf-8')]; the text of the export is ASCII. *)
Definition encode_utf8 (s : string) : list Byte.byte := list_byte_of_string s.

Section ExportMonthly.
Variable float_repr : Qc → string.
Variable lineterminator : string.

(** Line 136. *)
Definition csv (filtered_df : list Row) : list Byte.byte :=
  encode_utf8 (to_csv period_str float_repr lineterminator
                 (to_frame "Sales" (monthly_sales filtered_df))).
End ExportMonthly.

(** ** Correlation matrix (line 227) *)

Section Correlation.
Local Open Scope R_scope.

Definition sum_R (col : list R) : R := foldr Rplus 0 col.

Definition mean (col : list R) : R := sum_R col / INR (length col).

(** Sum of the products of the deviations of two columns from their
    means. *)
Definition sum_dev (xs ys : list R) : R :=
  sum_R (zip_with (λ x y, (x - mean xs) * (y - mean ys)) xs ys).

(** Pearson's coefficient of two columns of equal length, as
    [DataFrame.corr()] computes each entry: missing (NaN) when there is no
    observation ([min_periods=1]) or when the denominator is zero. *)
Definition pearson (xs ys : list R) : option R :=
  if decide (length xs < 1)%nat then None
  else
    let divisor := sqrt (sum_dev xs xs * sum_dev ys ys) in
    if Req_dec_T divisor 0 then None
    else Some (sum_dev xs ys / divisor).

(** [DataFrame.corr()]: one entry per pair of columns. *)
Definition corr (cols : list (list R)) : list (list (option R)) :=
  map (λ xs, map (λ ys, pearson xs ys) cols) cols.

Definition Qc2R (q : Qc) : R := Q2R (this q).

(** Line 227: [filtered_df[['Quantity', 'UnitPrice', 'TotalPrice']].corr()] *)
Definition corr_matrix (filtered_df : list Row) : list (list (option R)) :=
  corr [ map (λ r, IZR (Quantity r)) filtered_df;
         map (λ r, Qc2R (UnitPrice r)) filtered_df;
         map (λ r, Qc2R (TotalPrice r)) filtered_df ].

(** Entry [(i, j)] of a matrix. *)
Definition entry {A} (m : list (list A)) (i j : nat) : option A :=
  row ← m !! i; row !! j.
End Correlation.

(** ** Date bounds, last update and the country choices (lines 61-86) *)

(** Timestamps are compared field by field, the year first. *)
Fixpoint lex_leb (a b : list Z) : bool :=
  match a, b with
  | x :: a', y :: b' => (x <? y) || ((x =? y) && lex_leb a' b')
  | _, _ => true
  end.

Definition datetime_fields (t : datetime) : list Z :=
  [year t; month t; day t; hour t; minute t; second t].

Definition datetime_leb (a b : datetime) : bool :=
  lex_leb (datetime_fields a) (datetime_fields b).

(** [Series.max()] and [Series.min()] on a timestamp column; [None] is
    [NaT], the result on an empty column. *)
Definition series_max (col : list datetime) : option datetime :=
  foldr (λ t acc, match acc with
                  | None => Some t
                  | Some m => Some (if datetime_leb m t then t else m)
                  end) None col.

Definition series_min (col : list datetime) : option datetime :=
  foldr (λ t acc, match acc with
                  | None => Some t
                  | Some m => Some (if datetime_leb t m then t else m)
                  end) None col.

(** [strftime('%Y-%m-%d')] *)
Definition strftime_Ymd (t : datetime) : string :=
  (digit (year t / 1000) ++ digit (year t / 100) ++ digit (year t / 10)
   ++ digit (year t) ++ "-" ++ digit (month t / 10) ++ digit (month t)
   ++ "-" ++ digit (day t / 10) ++ digit (day t))%string.

(** Line 61.  [None] is the [ValueError] that [NaT.strftime] raises, on a
    table without rows. *)
Definition last_updated (df : list Row) : option string :=
  strftime_Ymd <$> series_max (map InvoiceDate df).

(** Lines 75-76.  [None] is [NaT]; line 61 has stopped the run before. *)
Definition min_date (df : list Row) : option date :=
  dt_date <$> series_min (map InvoiceDate df).
Definition max_date (df : list Row) : option date :=
  dt_date <$> series_max (map InvoiceDate df).

(** [Series.unique()]: the distinct values, in order of first appearance. *)
Definition unique {A} `{EqDecision A} (col : list A) : list A := drop_duplicates col.

(** [sorted(...)] on a list of texts. *)
Definition sorted (l : list string) : list string := merge_sort (rel_of String.leb) l.

(** Line 85. *)
Definition countries (df : list Row) : list string :=
  "All"%string :: sorted (unique (map Country df)).

(** The series the top products are taken from (lines 179-180). *)
Definition product_quantities (filtered_df : list Row) : list (string * Z) :=
  agg (λ g, sum_int64 (map Quantity g))
      (groupby String.leb (λ r, Some (Description r)) filtered_df).

(** ** The selection of the filter, as the specification words it

    A row is selected when its date, truncated to the day, lies in
    [[start, stop]] and, unless the selection is ["All"], its country is the
    selected one. *)
Definition in_selection (start stop : date) (selected_country : string)
    (r : Row) : Prop :=
  date_leb start (dt_date (InvoiceDate r)) = true
  ∧ date_leb (dt_date (InvoiceDate r)) stop = true
  ∧ (selected_country ≠ "All"%string → Country r = selected_country).

#[global] Instance in_selection_dec start stop sel r :
  Decision (in_selection start stop sel r).
Proof. unfold in_selection. apply _. Defined.

(** ** The run of the script

    Frames are mutable objects: [filtered_df['Hour'] = ...] changes the
    object [filtered_df] is bound to.  The store maps object identities to
    frames; a frame has the rows of the loaded table and the integer columns
    added to it by item assignment.  A run ends with the page it displays,
    or with an exception raised at a line of the script; the store is the
    one the run leaves in either case. *)

Record Table := mkTable {
  t_rows : list Row;
  t_added : list (string * list Z)
}.

Definition loc := nat.

Record store := mkStore { heap : gmap loc Table; next : loc }.

Inductive outcome (X : Type) : Type :=
| Done (x : X)
| Raised (line : nat).
Arguments Done {X}.
Arguments Raised {X}.

Definition M (X : Type) : Type := store → outcome X * store.

#[global] Instance M_ret : MRet M := λ X x σ, (Done x, σ).
#[global] Instance M_bind : MBind M :=
  λ X Y k m σ, match m σ with
               | (Done x, σ') => k x σ'
               | (Raised line, σ') => (Raised line, σ')
               end.

(** An exception at [line] ends the run. *)
Definition raise {X} (line : nat) : M X := λ σ, (Raised line, σ).
Definition lift {X} (line : nat) (o : option X) : M X :=
  match o with Some x => mret x | None => raise line end.

(** A new object. *)
Definition alloc (t : Table) : M loc :=
  λ σ, (Done (next σ), mkStore (<[next σ := t]> (heap σ)) (S (next σ))).

(** The frame a name of the script denotes.  The names of the script are
    bound to objects of the store, so the second case does not arise; line 0
    stands for it. *)
Definition read (l : loc) : M Table :=
  λ σ, match heap σ !! l with
       | Some t => (Done t, σ)
       | None => (Raised 0, σ)
       end.

(** [name[mask]]: boolean indexing builds a new object. *)
Definition getitem_mask (l : loc) (bools : list bool) : M loc :=
  t ← read l;
  alloc (mkTable (loc_mask (t_rows t) bools)
                 (map (λ c, (c.1, loc_mask c.2 bools)) (t_added t))).

(** [name.copy()]: a new object with the same contents. *)
Definition copy (l : loc) : M loc := t ← read l; alloc t.

(** Replace or append the column [label]. *)
Fixpoint set_column (label : string) (col : list Z) (added : list (string * list Z)) :=
  match added with
  | [] => [(label, col)]
  | c :: added' =>
      if decide (c.1 = label) then (label, col) :: added'
      else c :: set_column label col added'
  end.

(** [name[label] = col]: item assignment changes the object in place. *)
Definition setitem (l : loc) (label : string) (col : list Z) : M unit :=
  λ σ, match heap σ !! l with
       | Some t =>
           (Done (),
            mkStore (<[l := mkTable (t_rows t) (set_column label col (t_added t))]>
                       (heap σ))
                    (next σ))
       | None => (Raised 0, σ)
       end.

(** [name[label]] for an added column; [None] is the [KeyError]. *)
Fixpoint get_column (label : string) (added : list (string * list Z)) : option (list Z) :=
  match added with
  | [] => None
  | c :: added' => if decide (c.1 = label) then Some c.2 else get_column label added'
  end.

(** Line 162: [filtered_df.groupby('Hour')['TotalPrice'].sum()], on the rows
    of the frame and its [Hour] column. *)
Definition hourly_sales_by (rows : list Row) (hours : list Z) : list (Z * Qc) :=
  agg (λ g, sum_Qc (map (λ rh : Row * Z, TotalPrice rh.1) g))
      (groupby Z.leb (λ rh : Row * Z, Some rh.2) (zip rows hours)).

(** A plotting call that is given its data as two arrays, [px.line(x=...,
    y=...)] or [px.bar(x=..., y=...)].  Given two empty arrays it raises: it
    takes them for two lists of column names.  The figure is built from the
    arrays; the store is not touched. *)
Definition px_xy {X Y} (line : nat) (x : list X) (y : list Y) : M unit :=
  match x, y with
  | [], [] => raise line
  | _, _ => mret ()
  end.

(** What the page shows. *)
Record Page := mkPage {
  pg_df : loc;
  pg_filtered_df : loc;
  pg_last_updated : string;
  pg_min_date : option date;
  pg_max_date : option date;
  pg_countries : list string;
  pg_total_sales : Qc;
  pg_total_orders : Z;
  pg_total_customers : Z;
  pg_avg_order_value : Qc;
  pg_monthly_sales : Series period Qc;
  pg_monthly_country_sales : list (string * string * Qc);
  pg_hourly_sales : list (Z * Qc);
  pg_top_products_data : list (string * Z);
  pg_top_countries_data : list (string * Qc);
  pg_customer_orders : list (Z * Z);
  pg_corr_matrix : list (list (option R))
}.

Section Script.
Variable to_datetime : string → option datetime.

(** The script, statement by statement, on the file [raw] and the values
    [date_range] and [selected_country] of the two sidebar inputs.  The
    frames [df], [df[mask]] and [filtered_df] are objects of the store; the
    metrics and the chart aggregations read [filtered_df] from the store;
    the series and frames they build ([groupby] results, renamed and
    relabelled in place at lines 143-144 and 216) and the export computed
    from the monthly series (line 136) are values of their own.  The
    plotting calls given a frame, a series or a matrix (lines 148, 217 and
    228) raise nothing and leave the store alone. *)
Definition script (raw : list RawRow) (date_range : list date)
    (selected_country : string) : M Page :=
  (* 58 *)
  loaded ← lift 58 (load_data to_datetime raw);
  df ← alloc (mkTable loaded []);
  (* 61 *)
  t ← read df;
  last ← lift 61 (last_updated (t_rows t));
  (* 75-76 *)
  t ← read df;
  let lo := min_date (t_rows t) in
  let hi := max_date (t_rows t) in
  (* 85 *)
  t ← read df;
  let choices := countries (t_rows t) in
  (* 89-92 *)
  start ← lift 89 (date_range !! 0%nat);
  stop ← lift 89 (date_range !! 1%nat);
  t ← read df;
  masked ← getitem_mask df (mask (t_rows t) start stop selected_country);
  filtered_df ← copy masked;
  (* 99-102 *)
  f ← read filtered_df;
  let sales := total_sales (t_rows f) in
  let orders := total_orders (t_rows f) in
  let customers := total_customers (t_rows f) in
  avg ← lift 102 (avg_order_value (t_rows f));
  (* 127-128 *)
  f ← read filtered_df;
  let monthly := monthly_sales (t_rows f) in
  px_xy 128 (map period_str (items monthly).*1) (items monthly).*2;;
  (* 141-148 *)
  f ← read filtered_df;
  let trend := monthly_country_sales (t_rows f) in
  (* 161-163 *)
  f ← read filtered_df;
  setitem filtered_df "Hour" (map dt_hour (map InvoiceDate (t_rows f)));;
  f ← read filtered_df;
  hours ← lift 162 (get_column "Hour" (t_added f));
  let hourly := hourly_sales_by (t_rows f) hours in
  px_xy 163 hourly.*1 hourly.*2;;
  (* 179-183 *)
  f ← read filtered_df;
  let products := top_products_data (t_rows f) in
  px_xy 183 products.*2 products.*1;;
  (* 194-198 *)
  f ← read filtered_df;
  let top := top_countries_data (t_rows f) in
  px_xy 198 top.*2 top.*1;;
  (* 215-217 *)
  f ← read filtered_df;
  let per_customer := customer_orders (t_rows f) in
  (* 227-228 *)
  f ← read filtered_df;
  let corr := corr_matrix (t_rows f) in
  mret (mkPage df filtered_df last lo hi choices sales orders customers avg
          monthly trend hourly products top per_customer corr).
End Script.

Definition empty_store : store := mkStore ∅ 0%nat.

(** What the run leaves when it ends well, on the loaded table [loaded] and
    the rows [kept] of the selection: [df] is the first object and holds the
    loaded table as loaded; [filtered_df] is another object and holds the
    selected rows and the [Hour] column; the page shows the metrics and the
    aggregations of the selected rows. *)
Definition completed (loaded kept : list Row) (pg : Page) (σ : store) : Prop :=
  pg_df pg = 0%nat
  ∧ pg_filtered_df pg ≠ pg_df pg
  ∧ heap σ !! pg_df pg = Some (mkTable loaded [])
  ∧ heap σ !! pg_filtered_df pg
    = Some (mkTable kept [("Hour"%string, map dt_hour (map InvoiceDate kept))])
  ∧ pg_total_sales pg = total_sales kept
  ∧ pg_total_orders pg = total_orders kept
  ∧ pg_total_customers pg = total_customers kept
  ∧ Some (pg_avg_order_value pg) = avg_order_value kept
  ∧ pg_monthly_sales pg = monthly_sales kept
  ∧ pg_monthly_country_sales pg = monthly_country_sales kept
  ∧ pg_hourly_sales pg = hourly_sales kept
  ∧ pg_top_products_data pg = top_products_data kept
  ∧ pg_top_countries_data pg = top_countries_data kept
  ∧ pg_customer_orders pg = customer_orders kept
  ∧ pg_corr_matrix pg = corr_matrix kept.

(** What the run leaves when it stops at [line]: the loaded table is as
    loaded, no object has got a column, and the line is one of three: 61 on
    a table without rows, 89 on fewer than two dates, 128 on a selection
    without rows. *)
Definition stopped (loaded : list Row) (date_range : list date) (sel : string)
    (line : nat) (σ : store) : Prop :=
  heap σ !! 0%nat = Some (mkTable loaded [])
  ∧ (∀ l t, heap σ !! l = Some t → t_added t = [])
  ∧ ((line = 61%nat ∧ loaded = [])
     ∨ (line = 89%nat ∧ loaded ≠ [] ∧ (length date_range < 2)%nat)
     ∨ (line = 128%nat ∧ loaded ≠ []
        ∧ ∃ start stop rest,
            date_range = start :: stop :: rest
            ∧ filter (in_selection start stop sel) loaded = [])).

(** ** What a top-[n] selection must satisfy

    The series [s] has at most [n] entries, is sorted by value along [R],
    and each entry is a group of the frame: its key is the key of some row
    and its value is [total] of the rows of that key. *)
Definition top_n_of {K V} (n : nat) (R : relation V) (key : Row → K)
    (total : list Row → V) `{EqDecision K} (df : list Row) (s : list (K * V)) : Prop :=
  (length s ≤ n)%nat
  ∧ Sorted (by_value R) s
  ∧ ∀ k v, (k, v) ∈ s →
      (∃ r, r ∈ df ∧ key r = k) ∧ v = total (filter (λ r, key r = k) df).

(** ** Constant columns *)

(** All the rows carry the same value in the column [f]; so it is for a
    table with no row or with one row. *)
Definition constant_on {X} (f : Row → X) (df : list Row) : Prop :=
  ∀ r r', r ∈ df → r' ∈ df → f r = f r'.

(** What holds of a diagonal entry [e] of the correlation matrix, for the
    column [f]: the entry is there, [Some _], and it is missing (NaN,
    [None]) when the column is constant, 1 otherwise. *)
Definition diagonal_entry {X} (f : Row → X) (df : list Row)
    (e : option (option R)) : Prop :=
  (constant_on f df → e = Some None) ∧ (¬ constant_on f df → e = Some (Some 1%R)).

(** ** Sample data *)

(** The two rows of the worked example: invoices 1 and 2, totals 10 and 20,
    country FR, dated 2021-01-05 and 2021-02-10. *)
Definition ex_row1 : Row :=
  mkRecord "1" [] "mug" 1 (mkDatetime 2021 1 5 9 30 0) (Qc_of_Z 10) (Some 17850)
           "FR" (Qc_of_Z 10).
Definition ex_row2 : Row :=
  mkRecord "2" [] "lamp" 2 (mkDatetime 2021 2 10 14 0 0) (Qc_of_Z 10) (Some 13047)
           "FR" (Qc_of_Z 20).
Definition ex_rows : list Row := [ex_row1; ex_row2].

(** The sample with a third row, from another country. *)
Definition ex_row3 : Row :=
  mkRecord "3" [] "mug" 1 (mkDatetime 2021 2 11 9 15 0) (Qc_of_Z 5) (Some 12583)
           "DE" (Qc_of_Z 5).
Definition ex_rows3 : list Row := [ex_row1; ex_row2; ex_row3].

(** A small file: a line item, the same line again, a line without customer
    and a return (negative quantity). *)
Definition ex_raw : list RawRow :=
  [ mkRecord "1" ["85123A"] "mug" 1 "2021-01-05 09:30:00" (Qc_of_Z 10) (Some 17850) "FR" ();
    mkRecord "1" ["85123A"] "mug" 1 "2021-01-05 09:30:00" (Qc_of_Z 10) (Some 17850) "FR" ();
    mkRecord "2" ["71053"] "lamp" 2 "2021-02-10 14:00:00" (Qc_of_Z 10) None "FR" ();
    mkRecord "C3" ["71053"] "lamp" (-2) "not a date" (Qc_of_Z 10) (Some 13047) "FR" () ].

(** A date parser that knows the two timestamps of the sample. *)
Definition ex_to_datetime (s : string) : option datetime :=
  if decide (s = "2021-01-05 09:30:00"%string) then Some (mkDatetime 2021 1 5 9 30 0)
  else if decide (s = "2021-02-10 14:00:00"%string) then Some (mkDatetime 2021 2 10 14 0 0)
  else None.

(** The table loaded from the small file: its first line. *)
Definition ex_loaded : list Row :=
  [ mkRecord "1" ["85123A"] "mug" 1 (mkDatetime 2021 1 5 9 30 0) (Qc_of_Z 10)
             (Some 17850) "FR" (Qc_of_Z 1 * Qc_of_Z 10)%Qc ].

(** A float printer that knows the two totals of the sample. *)
Definition ex_float_repr (q : Qc) : string :=
  if decide (q = Qc_of_Z 10) then "10.0"%string
  else if decide (q = Qc_of_Z 20) then "20.0"%string
  else "nan"%string.

(** The line feed. *)
Definition LF : string := String (ascii_of_nat 10) EmptyString.

(** * Properties *)

(** ** Frames *)

(** [map] and stdpp's [fmap] on lists are the same function. *)
Lemma map_fmap {A B} (f : A → B) (l : list A) : map f l = f <$> l.
Proof. reflexivity. Qed.

Lemma elem_of_map {A B} (f : A → B) (l : list A) y :
  y ∈ map f l ↔ ∃ x, y = f x ∧ x ∈ l.
Proof. apply list_elem_of_fmap. Qed.

Section FrameFacts.
Context {A : Type}.

Lemma loc_mask_fmap (p : A → bool) (df : list A) :
  loc_mask df (map p df) = filter (λ r, p r = true) df.
Proof.
  induction df as [|r df IH]; [done|].
  cbn [map loc_mask]. rewrite filter_cons.
  destruct (p r) eqn:Hp.
  - rewrite decide_True by done. by rewrite IH.
  - rewrite decide_False by done. done.
Qed.

Lemma loc_mask_column {B} (f : A → B) (p : B → bool) (df : list A) :
  loc_mask df (map p (map f df)) = filter (λ r, p (f r) = true) df.
Proof. rewrite map_map. apply (loc_mask_fmap (λ r, p (f r))). Qed.

Lemma mask_and_fmap (p q : A → bool) (df : list A) :
  mask_and (map p df) (map q df) = map (λ r, p r && q r) df.
Proof. induction df as [|r df IH]; [done|]. cbn. f_equal. apply IH. Qed.

Lemma assign_computed {B C} (set : A → B → C) (f : A → B) (df : list A) :
  assign set df (map f df) = map (λ r, set r (f r)) df.
Proof. induction df as [|r df IH]; [done|]. cbn. f_equal. apply IH. Qed.

Lemma zip_with_columns {B C D} (g : B → C → D) (f1 : A → B) (f2 : A → C) df :
  zip_with g (map f1 df) (map f2 df) = map (λ r, g (f1 r) (f2 r)) df.
Proof. induction df as [|r df IH]; [done|]. cbn. f_equal. apply IH. Qed.

Context `{EqDecision A}.

Lemma elem_of_drop_duplicates_from (seen df : list A) r :
  r ∈ drop_duplicates_from seen df ↔ r ∈ df ∧ r ∉ seen.
Proof.
  revert seen. induction df as [|x df IH]; intros seen; cbn.
  - split; [by intros ?%elem_of_nil | by intros [?%elem_of_nil _]].
  - destruct (decide (x ∈ seen)) as [Hx|Hx].
    + rewrite IH, elem_of_cons. split; [tauto|].
      intros [[->|?] ?]; tauto.
    + rewrite !elem_of_cons, IH, elem_of_cons.
      destruct (decide (r = x)) as [->|]; tauto.
Qed.

Lemma NoDup_drop_duplicates_from (seen df : list A) :
  NoDup (drop_duplicates_from seen df).
Proof.
  revert seen. induction df as [|x df IH]; intros seen; cbn.
  - constructor.
  - destruct (decide (x ∈ seen)); [apply IH|].
    constructor; [|apply IH].
    rewrite elem_of_drop_duplicates_from, elem_of_cons. tauto.
Qed.

Lemma elem_of_drop_duplicates (df : list A) r : r ∈ drop_duplicates df ↔ r ∈ df.
Proof.
  unfold drop_duplicates. rewrite elem_of_drop_duplicates_from.
  split; [tauto|]. intros ?. split; [done|]. apply not_elem_of_nil.
Qed.

Lemma NoDup_drop_duplicates (df : list A) : NoDup (drop_duplicates df).
Proof. apply NoDup_drop_duplicates_from. Qed.

Lemma drop_duplicates_from_sublist (seen df : list A) :
  drop_duplicates_from seen df `sublist_of` df.
Proof.
  revert seen. induction df as [|x df IH]; intros seen; cbn; [done|].
  destruct (decide (x ∈ seen)).
  - by apply sublist_cons.
  - by apply sublist_skip.
Qed.

Lemma drop_duplicates_from_NoDup (seen df : list A) :
  NoDup df → (∀ r, r ∈ df → r ∉ seen) → drop_duplicates_from seen df = df.
Proof.
  revert seen. induction df as [|x df IH]; intros seen Hnd Hseen; cbn; [done|].
  apply NoDup_cons in Hnd as [Hx Hnd].
  rewrite decide_False by (apply Hseen; left).
  f_equal. apply IH; [done|].
  intros r Hr [->|?]%elem_of_cons; [done|].
  by apply (Hseen r); [right|].
Qed.
End FrameFacts.

(** ** Loader *)

Section LoaderFacts.
Variable to_datetime : string → option datetime.

(** The rows of the table before the removal of duplicates, written as
    one pass over the rows that survive the two selections. *)
Lemma load_data_unfold (raw : list RawRow) (df : list Row) :
  load_data to_datetime raw = Some df →
  ∃ dates,
    let kept := filter (λ r, (0 <? Quantity r) = true)
                  (filter (λ r : RawRow, bool_decide (CustomerID r ≠ None) = true) raw) in
    Forall2 (λ r d, to_datetime (InvoiceDate r) = Some d) kept dates
    ∧ df = drop_duplicates
             (map (λ r : SalesRecord datetime unit,
                     set_TotalPrice r (Qc_of_Z (Quantity r) * UnitPrice r)%Qc)
                  (zip_with set_InvoiceDate kept dates)).
Proof.
  unfold load_data, dropna_CustomerID.
  rewrite (loc_mask_column CustomerID (λ c, bool_decide (c ≠ None))).
  rewrite (loc_mask_column Quantity (λ q, 0 <? q)).
  intros Hload. apply bind_Some in Hload as (dates & Hdates & Hdf).
  exists dates. cbn zeta. split.
  - apply mapM_Some_1 in Hdates. by apply Forall2_fmap_l in Hdates.
  - injection Hdf as <-. f_equal. unfold assign at 1.
    rewrite zip_with_columns. apply (assign_computed set_TotalPrice).
Qed.
(** The loader returns a table as soon as the dates of the rows it keeps
    can be parsed. *)
Lemma load_data_returns (raw : list RawRow) :
  (∀ r : RawRow, r ∈ raw → CustomerID r ≠ None → 0 < Quantity r →
     is_Some (to_datetime (InvoiceDate r))) →
  is_Some (load_data to_datetime raw).
Proof.
  intros Hparse. unfold load_data, dropna_CustomerID.
  rewrite (loc_mask_column CustomerID (λ c, bool_decide (c ≠ None))).
  rewrite (loc_mask_column Quantity (λ q, 0 <? q)).
  match goal with
  | |- is_Some (mapM _ ?col ≫= _) => destruct (mapM_is_Some_2 to_datetime col) as [dates ->]
  end; [|done].
  apply Forall_forall. intros d (r & -> & Hr)%elem_of_map.
  apply list_elem_of_filter in Hr as [Hq Hr].
  apply list_elem_of_filter in Hr as [Hc Hr].
  apply Hparse; [done|by apply bool_decide_eq_true in Hc|by apply Z.ltb_lt in Hq].
Qed.
End LoaderFacts.

(** C1.  For every row of the table returned by [load_data]: the customer
    identifier is present, the quantity is positive and the total price is
    the quantity times the unit price; and no two rows of the table (at two
    different positions) are identical. *)
Theorem load_data_invariants (to_datetime : string → option datetime)
    (raw : list RawRow) (df : list Row) :
  load_data to_datetime raw = Some df →
  (∀ r, r ∈ df →
     CustomerID r ≠ None
     ∧ 0 < Quantity r
     ∧ TotalPrice r = (Qc_of_Z (Quantity r) * UnitPrice r)%Qc)
  ∧ (∀ i j r, df !! i = Some r → df !! j = Some r → i = j).
Proof.
  intros (dates & Hdates & ->)%load_data_unfold. cbn zeta in *. split.
  - intros r Hr. rewrite elem_of_drop_duplicates in Hr.
    apply elem_of_map in Hr as (r' & -> & Hr').
    apply elem_of_zip_with in Hr' as (r0 & d & -> & Hr0 & _).
    apply list_elem_of_filter in Hr0 as [Hq Hr0].
    apply list_elem_of_filter in Hr0 as [Hc _].
    cbn. split_and!.
    + by apply bool_decide_eq_true in Hc.
    + by apply Z.ltb_lt in Hq.
    + done.
  - intros i j r Hi Hj.
    eapply NoDup_alt; [|exact Hi|exact Hj]. apply NoDup_drop_duplicates.
Qed.

(** The invariants on the table loaded from the small file: the repeated
    line, the line without customer and the return are gone, and the text
    that is no date, on a dropped line, is never parsed. *)
Lemma load_data_invariants_witness :
  load_data ex_to_datetime ex_raw = Some ex_loaded
  ∧ (∀ r, r ∈ ex_loaded →
       CustomerID r ≠ None
       ∧ 0 < Quantity r
       ∧ TotalPrice r = (Qc_of_Z (Quantity r) * UnitPrice r)%Qc)
  ∧ (∀ i j r, ex_loaded !! i = Some r → ex_loaded !! j = Some r → i = j).
Proof.
  split; [vm_compute; reflexivity|].
  apply (load_data_invariants ex_to_datetime ex_raw ex_loaded).
  vm_compute. reflexivity.
Defined.

(** ** Filter *)

Lemma eq_bool_decide (b : bool) (P : Prop) `{!Decision P} :
  (b = true ↔ P) → b = bool_decide P.
Proof.
  intros Hb. destruct b.
  - symmetry. apply bool_decide_eq_true. by apply Hb.
  - symmetry. apply bool_decide_eq_false. intros HP. by apply Hb in HP.
Qed.

Lemma mask_spec (df : list Row) start stop sel :
  mask df start stop sel
  = map (λ r, bool_decide (in_selection start stop sel r)) df.
Proof.
  unfold mask. rewrite !map_map.
  rewrite (mask_and_fmap (λ r : Row, date_geb (dt_date (InvoiceDate r)) start)
                         (λ r : Row, date_leb (dt_date (InvoiceDate r)) stop)).
  destruct (decide (sel ≠ "All"%string)) as [Hsel|Hsel].
  - rewrite mask_and_fmap. apply map_ext. intros r. apply eq_bool_decide.
    unfold in_selection, date_geb.
    rewrite !andb_true_iff, bool_decide_eq_true. tauto.
  - apply map_ext. intros r. apply eq_bool_decide.
    unfold in_selection, date_geb. rewrite andb_true_iff. tauto.
Qed.

Lemma apply_filters_filter (df : list Row) start stop sel :
  apply_filters df [start; stop] sel
  = Some (filter (in_selection start stop sel) df).
Proof.
  unfold apply_filters, frame_copy. cbn. f_equal.
  rewrite mask_spec, loc_mask_fmap.
  apply list_filter_iff. intros r. apply bool_decide_eq_true.
Qed.

(** With fewer than two dates in [date_range] the indexing raises. *)
Lemma apply_filters_short (df : list Row) (start : date) (sel : string) :
  apply_filters df [] sel = None ∧ apply_filters df [start] sel = None.
Proof. split; reflexivity. Qed.

(** C2.  On an interval [[start, stop]] and a country selection, the filter
    returns exactly the rows of the table that are in the selection, in the
    order of the table: the date of the row, truncated to the day, is
    between [start] and [stop], and the country is the selected one unless
    the selection is ["All"], which restricts nothing. *)
Theorem apply_filters_spec (df : list Row) (start stop : date) (sel : string) :
  ∃ out,
    apply_filters df [start; stop] sel = Some out
    ∧ out = filter (in_selection start stop sel) df
    ∧ out `sublist_of` df
    ∧ (∀ r, r ∈ out ↔
         r ∈ df
         ∧ date_leb start (dt_date (InvoiceDate r)) = true
         ∧ date_leb (dt_date (InvoiceDate r)) stop = true
         ∧ (sel ≠ "All"%string → Country r = sel)).
Proof.
  eexists. split; [apply apply_filters_filter|]. split; [done|]. split.
  - apply sublist_filter.
  - intros r. rewrite list_elem_of_filter. unfold in_selection. tauto.
Qed.

(** C5.  Filtering is idempotent: the filter applied to its own result, with
    the same interval and selection, returns that result. *)
Theorem apply_filters_idempotent (df : list Row) (start stop : date) (sel : string) :
  apply_filters df [start; stop] sel
    ≫= (λ out, apply_filters out [start; stop] sel)
  = apply_filters df [start; stop] sel.
Proof.
  rewrite apply_filters_filter. cbn [mbind option_bind].
  rewrite apply_filters_filter. f_equal.
  rewrite list_filter_filter. apply list_filter_iff. tauto.
Qed.

(** ** Key metrics *)

Lemma nunique_size `{Countable A} (col : list A) :
  nunique col = Z.of_nat (size (list_to_set col : gset A)).
Proof.
  unfold nunique. f_equal.
  rewrite <- (size_list_to_set (C:=gset A) (drop_duplicates col))
    by apply NoDup_drop_duplicates.
  f_equal. apply set_eq. intros x.
  by rewrite !elem_of_list_to_set, elem_of_drop_duplicates.
Qed.

Lemma nunique_nonneg `{EqDecision A} (col : list A) : 0 ≤ nunique col.
Proof. unfold nunique. lia. Qed.

(** C3.  The average order value never divides by zero: it is [0] when
    there is no order and the total sales divided by the number of orders
    otherwise, where the total sales are the sum of the total prices and the
    number of orders is the number of distinct invoice numbers. *)
Theorem avg_order_value_spec (filtered_df : list Row) :
  avg_order_value filtered_df
  = Some (if decide (total_orders filtered_df = 0) then Qc_of_Z 0
          else (total_sales filtered_df / Qc_of_Z (total_orders filtered_df))%Qc)
  ∧ total_sales filtered_df = sum_Qc (map TotalPrice filtered_df)
  ∧ total_orders filtered_df
    = Z.of_nat (size (list_to_set (map InvoiceNo filtered_df) : gset string)).
Proof.
  split; [|split; [done|apply nunique_size]].
  unfold avg_order_value, true_div.
  pose proof (nunique_nonneg (map InvoiceNo filtered_df)) as Hn.
  fold (total_orders filtered_df) in Hn.
  destruct (0 <? total_orders filtered_df) eqn:Hpos.
  - apply Z.ltb_lt in Hpos. rewrite !decide_False by lia. done.
  - apply Z.ltb_ge in Hpos. rewrite decide_True by lia. done.
Qed.

(** ** Orders on dates and periods *)

Ltac bool_to_Z :=
  repeat first
    [ rewrite orb_true_iff | rewrite andb_true_iff | rewrite negb_true_iff
    | rewrite orb_false_iff | rewrite andb_false_iff
    | rewrite Z.ltb_lt | rewrite Z.leb_le | rewrite Z.eqb_eq
    | rewrite Z.ltb_ge | rewrite Z.leb_gt | rewrite Z.eqb_neq ].

Ltac bool_to_Z_in H :=
  repeat first
    [ rewrite orb_true_iff in H | rewrite andb_true_iff in H
    | rewrite negb_true_iff in H
    | rewrite orb_false_iff in H | rewrite andb_false_iff in H
    | rewrite Z.ltb_lt in H | rewrite Z.leb_le in H | rewrite Z.eqb_eq in H
    | rewrite Z.ltb_ge in H | rewrite Z.leb_gt in H | rewrite Z.eqb_neq in H ].

Lemma date_leb_trans (a b c : date) :
  date_leb a b = true → date_leb b c = true → date_leb a c = true.
Proof.
  destruct a, b, c. unfold date_leb. cbn.
  intros H1 H2. bool_to_Z_in H1. bool_to_Z_in H2. bool_to_Z. lia.
Qed.

Lemma date_ltb_not_leb (a b : date) : date_ltb a b = true → date_leb b a = false.
Proof. unfold date_ltb. intros [_ H]%andb_true_iff. by apply negb_true_iff. Qed.

(** The strict comparison is the lexicographic one on (year, month, day). *)
Lemma date_ltb_lex (a b : date) :
  date_ltb a b = true ↔
  d_year a < d_year b
  ∨ (d_year a = d_year b
     ∧ (d_month a < d_month b ∨ (d_month a = d_month b ∧ d_day a < d_day b))).
Proof. destruct a, b. unfold date_ltb, date_leb. cbn. bool_to_Z. lia. Qed.

Lemma period_eq (a b : period) : a = b ↔ p_year a = p_year b ∧ p_month a = p_month b.
Proof. destruct a, b. cbn. split; [by intros [= -> ->]|by intros [-> ->]]. Qed.

Lemma period_leb_spec (a b : period) :
  period_leb a b = true ↔
  p_year a < p_year b ∨ (p_year a = p_year b ∧ p_month a ≤ p_month b).
Proof.
  unfold period_leb, period_ltb. bool_to_Z.
  rewrite bool_decide_eq_true, period_eq. lia.
Qed.

Lemma period_ltb_spec (a b : period) :
  period_ltb a b = true ↔
  p_year a < p_year b ∨ (p_year a = p_year b ∧ p_month a < p_month b).
Proof. unfold period_ltb. bool_to_Z. lia. Qed.

#[global] Instance period_leb_total : Total (rel_of period_leb).
Proof. intros a b. unfold rel_of. rewrite !period_leb_spec. lia. Qed.

#[global] Instance period_leb_trans : Transitive (rel_of period_leb).
Proof. intros a b c. unfold rel_of. rewrite !period_leb_spec. lia. Qed.

Lemma period_leb_ne_ltb (a b : period) :
  period_leb a b = true → a ≠ b → period_ltb a b = true.
Proof. rewrite period_leb_spec, period_ltb_spec, period_eq. lia. Qed.

(** ** Grouping *)

Section GroupByFacts.
Context {A K : Type} `{EqDecision K}.
Variable leb : K → K → bool.
Variable key : A → option K.

Lemma groupby_keys (df : list A) :
  (groupby leb key df).*1
  = merge_sort (rel_of leb) (drop_duplicates (omap key df)).
Proof.
  unfold groupby. generalize (merge_sort (rel_of leb) (drop_duplicates (omap key df))).
  intros ks. induction ks as [|k ks IH]; [done|]. cbn. by f_equal.
Qed.

Lemma agg_keys {V} (f : list A → V) (g : list (K * list A)) : (agg f g).*1 = g.*1.
Proof. induction g as [|e g IH]; [done|]. cbn. by f_equal. Qed.

Lemma elem_of_groupby_keys (df : list A) k :
  k ∈ (groupby leb key df).*1 ↔ ∃ r, r ∈ df ∧ key r = Some k.
Proof.
  rewrite groupby_keys, merge_sort_Permutation, elem_of_drop_duplicates.
  apply list_elem_of_omap.
Qed.

Lemma NoDup_groupby_keys (df : list A) : NoDup (groupby leb key df).*1.
Proof.
  rewrite groupby_keys, merge_sort_Permutation. apply NoDup_drop_duplicates.
Qed.

Lemma elem_of_groupby (df : list A) k g :
  (k, g) ∈ groupby leb key df ↔
  (∃ r, r ∈ df ∧ key r = Some k) ∧ g = filter (λ r, key r = Some k) df.
Proof.
  rewrite <- elem_of_groupby_keys, groupby_keys.
  unfold groupby. rewrite elem_of_map. split.
  - intros (k' & [= -> ->] & Hk). done.
  - intros [Hk ->]. by exists k.
Qed.

(** An entry of an aggregated series: its key occurs in the frame and its
    value aggregates the rows of that key. *)
Lemma elem_of_agg_groupby {V} (f : list A → V) (df : list A) k v :
  (k, v) ∈ agg f (groupby leb key df) ↔
  (∃ r, r ∈ df ∧ key r = Some k) ∧ v = f (filter (λ r, key r = Some k) df).
Proof.
  unfold agg. rewrite elem_of_map. split.
  - intros ([k' g] & [= -> ->] & Hg). cbn.
    apply elem_of_groupby in Hg as [Hk ->]. done.
  - intros [Hk ->]. exists (k, filter (λ r, key r = Some k) df).
    split; [done|]. by apply elem_of_groupby.
Qed.

Lemma groupby_nil : groupby leb key [] = [].
Proof. reflexivity. Qed.

Lemma Sorted_groupby_keys `{!Total (rel_of leb)} (df : list A) :
  Sorted (rel_of leb) (groupby leb key df).*1.
Proof. rewrite groupby_keys. apply Sorted_merge_sort, _. Qed.
End GroupByFacts.

(** ** Sorting, [head] and [tail] *)

Section SortFacts.
Context {A : Type} (R : relation A).

Lemma HdRel_take (x : A) l n : HdRel R x l → HdRel R x (take n l).
Proof. destruct 1, n; cbn; by constructor. Qed.

Lemma Sorted_take l n : Sorted R l → Sorted R (take n l).
Proof.
  intros Hl. revert n. induction Hl as [|x l Hl IH Hx]; intros [|n]; cbn;
    try constructor; [apply IH|by apply HdRel_take].
Qed.

Lemma Sorted_drop l n : Sorted R l → Sorted R (drop n l).
Proof.
  intros Hl. revert n. induction Hl as [|x l Hl IH Hx]; intros [|n]; cbn;
    [constructor|constructor|by constructor|apply IH].
Qed.

Lemma length_head_n n (l : list A) : (length (head_n n l) ≤ n)%nat.
Proof. unfold head_n. rewrite length_take. lia. Qed.

Lemma length_tail_n n (l : list A) : (length (tail_n n l) ≤ n)%nat.
Proof. unfold tail_n. rewrite length_drop. lia. Qed.

Lemma elem_of_head_n n (l : list A) x : x ∈ head_n n l → x ∈ l.
Proof. apply subseteq_take. Qed.

Lemma elem_of_tail_n n (l : list A) x : x ∈ tail_n n l → x ∈ l.
Proof. apply subseteq_drop. Qed.

(** A sorted list without repetition is strictly sorted. *)
Lemma StronglySorted_NoDup_strict (R' : relation A) l :
  (∀ a b, R a b → a ≠ b → R' a b) →
  StronglySorted R l → NoDup l → StronglySorted R' l.
Proof.
  intros HR. induction 1 as [|x l Hl IH Hx]; intros Hnd; constructor.
  - apply IH. by apply NoDup_cons in Hnd as [_ ?].
  - apply NoDup_cons in Hnd as [Hxl _].
    apply Forall_forall. intros y Hy. apply HR.
    + by apply (proj1 (Forall_forall _ _) Hx).
    + by intros ->.
Qed.
End SortFacts.

#[global] Instance by_value_total {K V} (R : relation V) `{!Total R} :
  Total (by_value (K:=K) R).
Proof. intros a b. apply (total R). Qed.

Section StableSortFacts.
Context {A : Type} (R : relation A) `{!RelDecision R}.

Lemma insert_sorted_Permutation (x : A) (l : list A) :
  insert_sorted R x l ≡ₚ x :: l.
Proof.
  induction l as [|y l IH]; [done|]. cbn.
  destruct (decide (R x y)); [done|]. rewrite IH. apply Permutation_swap.
Qed.

Lemma stable_sort_Permutation (l : list A) : stable_sort R l ≡ₚ l.
Proof.
  induction l as [|x l IH]; [done|]. cbn.
  fold (stable_sort R l). by rewrite insert_sorted_Permutation, IH.
Qed.

Lemma Sorted_insert_sorted `{!Total R} (x : A) (l : list A) :
  Sorted R l → Sorted R (insert_sorted R x l).
Proof.
  induction 1 as [|y l Hl IH Hy]; cbn.
  - by repeat constructor.
  - destruct (decide (R x y)) as [Hxy|Hxy].
    + by repeat constructor.
    + constructor; [done|].
      assert (R y x) as Hyx by (by destruct (total R x y)).
      destruct Hy as [|z l Hyz]; cbn.
      * by constructor.
      * destruct (decide (R x z)); by constructor.
Qed.

Lemma Sorted_stable_sort `{!Total R} (l : list A) : Sorted R (stable_sort R l).
Proof.
  induction l as [|x l IH]; [constructor|]. cbn.
  by apply Sorted_insert_sorted.
Qed.
End StableSortFacts.

Lemma Sorted_sort_values_asc {K V} (R : relation V) `{!RelDecision R, !Total R}
    (s : list (K * V)) :
  Sorted (by_value R) (sort_values_asc R s).
Proof. apply Sorted_stable_sort, _. Qed.

Lemma Sorted_sort_values_desc {K V} (R : relation V) `{!RelDecision R, !Total R}
    (s : list (K * V)) :
  Sorted (by_value (flip R)) (sort_values_desc R s).
Proof.
  apply (Sorted_reverse (by_value R)), Sorted_stable_sort, _.
Qed.

Lemma sort_values_asc_Permutation {K V} (R : relation V) `{!RelDecision R}
    (s : list (K * V)) :
  sort_values_asc R s ≡ₚ s.
Proof. apply stable_sort_Permutation. Qed.

Lemma sort_values_desc_Permutation {K V} (R : relation V) `{!RelDecision R}
    (s : list (K * V)) :
  sort_values_desc R s ≡ₚ s.
Proof.
  unfold sort_values_desc.
  by rewrite reverse_Permutation, stable_sort_Permutation, reverse_Permutation.
Qed.

Lemma elem_of_sort_values_asc {K V} (R : relation V) `{!RelDecision R}
    (s : list (K * V)) e :
  e ∈ sort_values_asc R s ↔ e ∈ s.
Proof. by rewrite sort_values_asc_Permutation. Qed.

Lemma elem_of_sort_values_desc {K V} (R : relation V) `{!RelDecision R}
    (s : list (K * V)) e :
  e ∈ sort_values_desc R s ↔ e ∈ s.
Proof. by rewrite sort_values_desc_Permutation. Qed.

(** Equality of evaluated structures whose leaves are fractions. *)
Ltac Qc_canon :=
  repeat match goal with
         | |- @eq Qc _ _ => by apply Qc_is_canon
         | |- _ :: _ = _ :: _ => f_equal
         | |- (_, _) = (_, _) => f_equal
         | |- Some _ = Some _ => f_equal
         end.

(** The groups of the monthly trend. *)
Lemma elem_of_monthly_sales (df : list Row) m s :
  (m, s) ∈ items (monthly_sales df) ↔
  (∃ r, r ∈ df ∧ dt_to_period_M (InvoiceDate r) = m)
  ∧ s = sum_Qc (map TotalPrice (filter (λ r, dt_to_period_M (InvoiceDate r) = m) df)).
Proof.
  unfold monthly_sales, groupby_sum. cbn [items c_cell col_map col_TotalPrice col_InvoiceDate].
  rewrite elem_of_agg_groupby.
  assert (Hf : filter (λ r : Row, Some (dt_to_period_M (InvoiceDate r)) = Some m) df
               = filter (λ r : Row, dt_to_period_M (InvoiceDate r) = m) df).
  { apply list_filter_iff. intros r. split; [by intros [= ->]|by intros ->]. }
  rewrite Hf. split.
  - intros [(r & Hr & [= Hm]) ->]. eauto.
  - intros [(r & Hr & Hm) ->]. split; [|done]. exists r. by rewrite Hm.
Qed.

(** C7.  The monthly trend has one entry per calendar month occurring in the
    rows, its months strictly ascending, and the value of a month is the sum
    of the total prices of the rows of that month.  On the two sample rows
    (invoice 1, total 10, FR, 2021-01-05; invoice 2, total 20, FR,
    2021-02-10) it is [2021-01: 10, 2021-02: 20], the total sales are 30,
    the orders 2 and the average order value 15. *)
Theorem monthly_sales_spec (filtered_df : list Row) :
  StronglySorted (λ a b, period_ltb a b = true) (items (monthly_sales filtered_df)).*1
  ∧ (∀ m s, (m, s) ∈ items (monthly_sales filtered_df) ↔
       (∃ r, r ∈ filtered_df ∧ dt_to_period_M (InvoiceDate r) = m)
       ∧ s = sum_Qc (map TotalPrice
                 (filter (λ r, dt_to_period_M (InvoiceDate r) = m) filtered_df)))
  ∧ items (monthly_sales ex_rows)
    = [(mkPeriod 2021 1, Qc_of_Z 10); (mkPeriod 2021 2, Qc_of_Z 20)]
  ∧ total_sales ex_rows = Qc_of_Z 30
  ∧ total_orders ex_rows = 2
  ∧ avg_order_value ex_rows = Some (Qc_of_Z 15).
Proof.
  split_and!.
  - unfold monthly_sales, groupby_sum. cbn [items]. rewrite agg_keys.
    apply (StronglySorted_NoDup_strict (rel_of period_leb)).
    + intros a b Hab Hne. by apply period_leb_ne_ltb.
    + apply Sorted_StronglySorted; [apply _|]. apply Sorted_groupby_keys, _.
    + apply NoDup_groupby_keys.
  - apply elem_of_monthly_sales.
  - vm_compute. Qc_canon.
  - Qc_canon.
  - reflexivity.
  - vm_compute. Qc_canon.
Qed.

(** *** Sums of 64-bit integers *)

Lemma wrap_int64_mod (z : Z) : wrap_int64 z mod 2 ^ 64 = z mod 2 ^ 64.
Proof.
  unfold wrap_int64. rewrite Zminus_mod_idemp_l. f_equal. lia.
Qed.

Lemma wrap_int64_congr (a b : Z) :
  a mod 2 ^ 64 = b mod 2 ^ 64 → wrap_int64 a = wrap_int64 b.
Proof.
  intros Hab. unfold wrap_int64.
  by rewrite (Zplus_mod a), Hab, <- (Zplus_mod b).
Qed.

Lemma wrap_int64_add (a b : Z) : wrap_int64 (wrap_int64 a + b) = wrap_int64 (a + b).
Proof.
  apply wrap_int64_congr.
  by rewrite Zplus_mod, wrap_int64_mod, <- Zplus_mod.
Qed.

Lemma wrap_int64_range (z : Z) : - 2 ^ 63 ≤ wrap_int64 z < 2 ^ 63.
Proof.
  unfold wrap_int64. pose proof (Z.mod_pos_bound (z + 2 ^ 63) (2 ^ 64)). lia.
Qed.

Lemma wrap_int64_small (z : Z) : - 2 ^ 63 ≤ z < 2 ^ 63 → wrap_int64 z = z.
Proof. intros Hz. unfold wrap_int64. rewrite Z.mod_small; lia. Qed.

(** The 64-bit sum is the sum of the integers, wrapped once; it is the sum
    itself when the sum fits in 64 bits. *)
Lemma sum_int64_wrap (col : list Z) :
  sum_int64 col = wrap_int64 (foldr Z.add 0 col).
Proof.
  unfold sum_int64. change 0 with (wrap_int64 0) at 1.
  assert (∀ acc, foldl (λ acc x, wrap_int64 (acc + x)) (wrap_int64 acc) col
                 = wrap_int64 (acc + foldr Z.add 0 col)) as Hgen; [|apply (Hgen 0)].
  induction col as [|x col IH]; intros acc; cbn [foldl foldr].
  - by rewrite Z.add_0_r.
  - rewrite wrap_int64_add, IH. f_equal. lia.
Qed.

Lemma sum_int64_exact (col : list Z) :
  - 2 ^ 63 ≤ foldr Z.add 0 col < 2 ^ 63 → sum_int64 col = foldr Z.add 0 col.
Proof. intros Hfit. rewrite sum_int64_wrap. by apply wrap_int64_small. Qed.

Lemma filter_key_Some {A K} `{EqDecision K} (key : A → K) (k : K) (df : list A) :
  filter (λ r, Some (key r) = Some k) df = filter (λ r, key r = k) df.
Proof. apply list_filter_iff. intros r. split; [by intros [= ->]|by intros ->]. Qed.

(** An entry of a series grouped on a column that has no missing value. *)
Lemma elem_of_agg_groupby_total {A K V} `{EqDecision K} (leb : K → K → bool)
    (key : A → K) (f : list A → V) (df : list A) k v :
  (k, v) ∈ agg f (groupby leb (λ r, Some (key r)) df) →
  (∃ r, r ∈ df ∧ key r = k) ∧ v = f (filter (λ r, key r = k) df).
Proof.
  rewrite elem_of_agg_groupby, filter_key_Some.
  intros [(r & Hr & [= Hk]) ->]. eauto.
Qed.

Lemma top_products_data_top (df : list Row) :
  top_n_of 10 Z.le Description (λ g, sum_int64 (map Quantity g)) df
    (top_products_data df).
Proof.
  unfold top_n_of, top_products_data. split_and!.
  - apply length_tail_n.
  - apply Sorted_drop, Sorted_sort_values_asc, _.
  - intros k v Hkv%elem_of_tail_n%elem_of_sort_values_asc.
    by apply elem_of_agg_groupby_total in Hkv.
Qed.

Lemma top_countries_data_top (df : list Row) :
  top_n_of 10 Qcle Country (λ g, sum_Qc (map TotalPrice g)) df (top_countries_data df).
Proof.
  unfold top_n_of, top_countries_data, country_sales. split_and!.
  - apply length_tail_n.
  - apply Sorted_drop, Sorted_sort_values_asc, _.
  - intros k v Hkv%elem_of_tail_n%elem_of_sort_values_asc.
    by apply elem_of_agg_groupby_total in Hkv.
Qed.

Lemma top_countries_series_top (df : list Row) :
  top_n_of 10 (flip Qcle) Country (λ g, sum_Qc (map TotalPrice g)) df
    (top_countries_series df).
Proof.
  unfold top_n_of, top_countries_series, country_sales. split_and!.
  - apply length_head_n.
  - apply Sorted_take, Sorted_sort_values_desc, _.
  - intros k v Hkv%elem_of_head_n%elem_of_sort_values_desc.
    by apply elem_of_agg_groupby_total in Hkv.
Qed.

Lemma monthly_country_sales_countries (df : list Row) row :
  row ∈ monthly_country_sales df → row.1.2 ∈ top_countries df.
Proof.
  unfold monthly_country_sales. cbn zeta.
  rewrite (loc_mask_column (λ row : string * string * Qc, row.1.2)
             (λ c, bool_decide (c ∈ top_countries df))).
  intros [Hrow _]%list_elem_of_filter. by apply bool_decide_eq_true in Hrow.
Qed.

Lemma monthly_country_sales_nunique (df : list Row) :
  (length (top_countries df) ≤ 10)%nat →
  nunique (map (λ row : string * string * Qc, row.1.2) (monthly_country_sales df)) ≤ 10.
Proof.
  intros Hlen. unfold nunique.
  assert (length (drop_duplicates
                    (map (λ row : string * string * Qc, row.1.2)
                         (monthly_country_sales df)))
          ≤ length (top_countries df))%nat; [|lia].
  apply submseteq_length, NoDup_submseteq; [apply NoDup_drop_duplicates|].
  intros c (row & -> & Hrow)%elem_of_drop_duplicates%elem_of_map.
  by apply monthly_country_sales_countries.
Qed.

(** C4.  Each of the three top-10 selections has at most ten groups, is
    sorted by the aggregate (top products by summed quantity and top
    countries by summed total price, both ascending; the countries of the
    country trend by summed total price, descending), and each of its groups
    is a group of the filtered rows: its key occurs in a row and its value
    is the aggregate of the rows of that key (for a product, the 64-bit sum
    of the quantities).  The country trend keeps only rows of the selected
    countries, hence of at most ten countries. *)
Theorem top10_spec (filtered_df : list Row) :
  top_n_of 10 Z.le Description (λ g, sum_int64 (map Quantity g)) filtered_df
    (top_products_data filtered_df)
  ∧ top_n_of 10 Qcle Country (λ g, sum_Qc (map TotalPrice g)) filtered_df
      (top_countries_data filtered_df)
  ∧ top_n_of 10 (flip Qcle) Country (λ g, sum_Qc (map TotalPrice g)) filtered_df
      (top_countries_series filtered_df)
  ∧ top_countries filtered_df = (top_countries_series filtered_df).*1
  ∧ (length (top_countries filtered_df) ≤ 10)%nat
  ∧ (∀ c, c ∈ top_countries filtered_df → ∃ r, r ∈ filtered_df ∧ Country r = c)
  ∧ (∀ row, row ∈ monthly_country_sales filtered_df →
       row.1.2 ∈ top_countries filtered_df)
  ∧ nunique (map (λ row, row.1.2) (monthly_country_sales filtered_df)) ≤ 10.
Proof.
  pose proof (top_countries_series_top filtered_df) as (Hlen & Hsorted & Hgroups).
  assert (length (top_countries filtered_df) ≤ 10)%nat as Hlen'.
  { unfold top_countries. by rewrite length_map. }
  split_and!; [..|by apply monthly_country_sales_nunique].
  - apply top_products_data_top.
  - apply top_countries_data_top.
  - done.
  - done.
  - done.
  - unfold top_countries. intros c ([c' v] & -> & Hcv)%elem_of_map.
    by apply Hgroups in Hcv as [? _].
  - apply monthly_country_sales_countries.
Qed.

(** ** An empty interval *)

Lemma filter_empty_interval (df : list Row) start stop sel :
  date_ltb stop start = true → filter (in_selection start stop sel) df = [].
Proof.
  intros Hlt%date_ltb_not_leb.
  induction df as [|r df IH]; [done|].
  rewrite filter_cons_False; [done|].
  intros (H1 & H2 & _). by rewrite (date_leb_trans _ _ _ H1 H2) in Hlt.
Qed.

Lemma corr_matrix_nil :
  corr_matrix [] = [ [None; None; None]; [None; None; None]; [None; None; None] ].
Proof. reflexivity. Qed.

(** C6 as stated fails: on an interval with [start > stop] the filter
    returns the empty table, but the correlation matrix of the empty table
    is not empty. *)
Lemma empty_range_corr_not_empty :
  ∃ out,
    date_ltb (mkDate 2021 1 1) (mkDate 2021 2 1) = true
    ∧ apply_filters ex_rows [mkDate 2021 2 1; mkDate 2021 1 1] "All" = Some out
    ∧ corr_matrix out ≠ [].
Proof.
  exists []. split; [reflexivity|]. split; [reflexivity|].
  by rewrite corr_matrix_nil.
Qed.

(** C6, amended.  On an interval with [start > stop] the filter returns the
    empty table without raising; on the empty table the monthly trend, the
    country trend, the hourly pattern, the top products, the top countries
    and the orders per customer are empty, and the correlation matrix is
    the 3 x 3 matrix whose entries are all missing. *)
Theorem empty_range_spec (df : list Row) (start stop : date) (sel : string) :
  date_ltb stop start = true →
  apply_filters df [start; stop] sel = Some []
  ∧ items (monthly_sales []) = []
  ∧ monthly_country_sales [] = []
  ∧ hourly_sales [] = []
  ∧ top_products_data [] = []
  ∧ top_countries_data [] = []
  ∧ customer_orders [] = []
  ∧ corr_matrix []
    = [ [None; None; None]; [None; None; None]; [None; None; None] ].
Proof.
  intros Hlt. rewrite apply_filters_filter, filter_empty_interval by done.
  split_and!; reflexivity.
Qed.

(** February to January, on the two sample rows. *)
Lemma empty_range_spec_witness :
  date_ltb (mkDate 2021 1 1) (mkDate 2021 2 1) = true
  ∧ apply_filters ex_rows [mkDate 2021 2 1; mkDate 2021 1 1] "FR" = Some []
  ∧ items (monthly_sales []) = []
  ∧ monthly_country_sales [] = []
  ∧ hourly_sales [] = []
  ∧ top_products_data [] = []
  ∧ top_countries_data [] = []
  ∧ customer_orders [] = []
  ∧ corr_matrix []
    = [ [None; None; None]; [None; None; None]; [None; None; None] ].
Proof. split; [reflexivity|]. apply (empty_range_spec ex_rows). reflexivity. Defined.

(** ** Export *)

Lemma string_app_nil_r (s : string) : (s ++ "")%string = s.
Proof. induction s as [|c s IH]; [done|]. exact (f_equal (String c) IH). Qed.

Lemma concat_empty_cons (x : string) (xs : list string) :
  String.concat "" (x :: xs) = (x ++ String.concat "" xs)%string.
Proof. destruct xs; [symmetry; apply string_app_nil_r|reflexivity]. Qed.

(** The header of the export is made of the name of the index of the
    monthly series, which is the label of the grouping column, and of the
    label given to [to_frame]. *)
Lemma csv_header_monthly_sales (df : list Row) :
  csv_header (to_frame "Sales" (monthly_sales df)) = ["InvoiceDate"; "Sales"]%string.
Proof. reflexivity. Qed.

(** C8 as stated fails: the first column of the export is not named
    [Month].  On the two sample rows the file reads
    [InvoiceDate,Sales / 2021-01,10.0 / 2021-02,20.0]. *)
Lemma csv_header_not_Month :
  csv_header (to_frame "Sales" (monthly_sales ex_rows)) ≠ ["Month"; "Sales"]%string
  ∧ csv ex_float_repr LF ex_rows
    = encode_utf8 ("InvoiceDate,Sales" ++ LF ++ "2021-01,10.0" ++ LF
                   ++ "2021-02,20.0" ++ LF)%string.
Proof. split; [discriminate|]. vm_compute. reflexivity. Qed.

(** C8, amended.  The export is the monthly-sales aggregation as delimited
    text: a header line with the columns [InvoiceDate] and [Sales], then one
    line per month of the aggregation, in its order, with the month and its
    sales. *)
Theorem csv_spec (float_repr : Qc → string) (lineterminator : string)
    (filtered_df : list Row) :
  csv float_repr lineterminator filtered_df
  = encode_utf8
      (csv_line lineterminator ["InvoiceDate"; "Sales"]
       ++ String.concat ""
            (map (λ e, csv_line lineterminator [period_str e.1; float_repr e.2])
                 (items (monthly_sales filtered_df))))%string.
Proof.
  unfold csv, to_csv, csv_records. cbn [map].
  rewrite concat_empty_cons, csv_header_monthly_sales.
  do 3 f_equal. unfold to_frame. cbn [f_rows]. rewrite !map_map. done.
Qed.

(** ** Correlation matrix *)

Section CorrelationFacts.
Local Open Scope R_scope.

Lemma sum_R_cons (x : R) (xs : list R) : sum_R (x :: xs) = x + sum_R xs.
Proof. reflexivity. Qed.

Lemma sum_dev_diag (xs : list R) :
  sum_dev xs xs = sum_R (map (λ x, (x - mean xs) * (x - mean xs)) xs).
Proof.
  unfold sum_dev. generalize (mean xs). intros m. f_equal.
  induction xs as [|x xs IH]; [done|]. cbn. by f_equal.
Qed.

Lemma sum_squares_nonneg (m : R) (xs : list R) :
  0 <= sum_R (map (λ x, (x - m) * (x - m)) xs).
Proof.
  induction xs as [|x xs IH]; [cbn; lra|].
  cbn [map]. rewrite sum_R_cons.
  pose proof (Rle_0_sqr (x - m)) as Hx. unfold Rsqr in Hx. lra.
Qed.

Lemma sum_squares_zero (m : R) (xs : list R) :
  sum_R (map (λ x, (x - m) * (x - m)) xs) = 0 ↔ Forall (λ x, x = m) xs.
Proof.
  induction xs as [|x xs IH].
  - split; [constructor|done].
  - cbn [map]. rewrite sum_R_cons.
    pose proof (Rle_0_sqr (x - m)) as Hx. unfold Rsqr in Hx.
    pose proof (sum_squares_nonneg m xs) as Hxs.
    rewrite Forall_cons, <- IH. split.
    + intros Hsum. assert ((x - m) * (x - m) = 0) as Hz by lra.
      split; [|lra]. apply Rmult_integral in Hz as [Hz|Hz]; lra.
    + intros [-> ->]. lra.
Qed.

Lemma sum_R_constant (c : R) (xs : list R) :
  Forall (λ x, x = c) xs → sum_R xs = INR (length xs) * c.
Proof.
  induction 1 as [|x xs -> _ IH]; [cbn; lra|].
  rewrite sum_R_cons, IH. cbn [length]. rewrite S_INR. lra.
Qed.

Lemma mean_constant (c : R) (xs : list R) :
  xs ≠ [] → Forall (λ x, x = c) xs → mean xs = c.
Proof.
  intros Hne Hc. unfold mean. rewrite (sum_R_constant c) by done.
  assert (INR (length xs) ≠ 0) as Hn.
  { apply not_0_INR. destruct xs; [done|]. cbn. lia. }
  by field.
Qed.

(** The coefficient of a column with itself. *)
Lemma pearson_diag_zero (xs : list R) : sum_dev xs xs = 0 → pearson xs xs = None.
Proof.
  intros Hz. unfold pearson. destruct (decide (length xs < 1)%nat); [done|].
  rewrite Hz, Rmult_0_l, sqrt_0. by destruct (Req_dec_T 0 0).
Qed.

Lemma pearson_diag_nonzero (xs : list R) :
  sum_dev xs xs ≠ 0 → pearson xs xs = Some 1.
Proof.
  intros Hnz. unfold pearson.
  destruct (decide (length xs < 1)%nat) as [Hlen|Hlen].
  { destruct xs; [|cbn in Hlen; lia]. exfalso. apply Hnz. cbn. done. }
  rewrite sqrt_square by (rewrite sum_dev_diag; apply sum_squares_nonneg).
  destruct (Req_dec_T (sum_dev xs xs) 0) as [Hz|_]; [done|].
  f_equal. by field.
Qed.

(** A column has a vanishing sum of squared deviations exactly when all
    its values are equal. *)
Lemma sum_dev_diag_zero (xs : list R) :
  sum_dev xs xs = 0 ↔ ∀ x y, x ∈ xs → y ∈ xs → x = y.
Proof.
  rewrite sum_dev_diag, sum_squares_zero, Forall_forall. split.
  - intros Hm x y Hx Hy. by rewrite (Hm x), (Hm y).
  - intros Hc. destruct xs as [|x0 xs]; [by intros ? ?%elem_of_nil|].
    assert (Forall (λ x, x = x0) (x0 :: xs)) as Hall.
    { apply Forall_forall. intros x Hx. apply Hc; [done|left]. }
    rewrite (mean_constant x0) by done.
    by apply Forall_forall.
Qed.

Lemma Qc2R_inj (a b : Qc) : Qc2R a = Qc2R b → a = b.
Proof. unfold Qc2R. intros Heq%eqR_Qeq. by apply Qc_is_canon. Qed.

(** The diagonal entry of a column of the table, read through an
    injection of its cells into the reals. *)
Lemma pearson_diag_column {X} (f : Row → X) (inj : X → R) (df : list Row) :
  (∀ a b, inj a = inj b → a = b) →
  diagonal_entry f df
    (Some (pearson (map (λ r, inj (f r)) df) (map (λ r, inj (f r)) df))).
Proof.
  intros Hinj.
  assert (constant_on f df ↔
          sum_dev (map (λ r, inj (f r)) df) (map (λ r, inj (f r)) df) = 0) as Hc.
  { rewrite sum_dev_diag_zero. unfold constant_on. split.
    - intros Hf x y (r & -> & Hr)%elem_of_map (r' & -> & Hr')%elem_of_map.
      f_equal. by apply Hf.
    - intros Hf r r' Hr Hr'. apply Hinj, Hf; apply elem_of_map; eauto. }
  split.
  - intros Hf%Hc. f_equal. by apply pearson_diag_zero.
  - intros Hf. f_equal. apply pearson_diag_nonzero. by rewrite <- Hc.
Qed.
End CorrelationFacts.

(** C9 as stated fails: on a table of one row every diagonal entry of the
    correlation matrix is missing, not 1. *)
Lemma corr_diagonal_one_row :
  entry (corr_matrix [ex_row1]) 0 0 ≠ Some (Some 1%R)
  ∧ entry (corr_matrix [ex_row1]) 1 1 ≠ Some (Some 1%R)
  ∧ entry (corr_matrix [ex_row1]) 2 2 ≠ Some (Some 1%R).
Proof.
  assert (∀ x : R, pearson [x] [x] = None) as Hp.
  { intros x. apply pearson_diag_zero, sum_dev_diag_zero.
    by intros a b ->%list_elem_of_singleton ->%list_elem_of_singleton. }
  unfold corr_matrix, corr, entry. cbn [map lookup list_lookup mbind option_bind].
  by rewrite !Hp.
Qed.

(** C9, amended.  Each diagonal entry of the correlation matrix is 1 when
    the rows do not all carry the same value in its column, and is missing
    when they do (in particular for a table with no row or one row).  The
    arithmetic is exact. *)
Theorem corr_diagonal_spec (filtered_df : list Row) :
  diagonal_entry Quantity filtered_df (entry (corr_matrix filtered_df) 0 0)
  ∧ diagonal_entry UnitPrice filtered_df (entry (corr_matrix filtered_df) 1 1)
  ∧ diagonal_entry TotalPrice filtered_df (entry (corr_matrix filtered_df) 2 2).
Proof.
  unfold corr_matrix, corr, entry. cbn [map lookup list_lookup mbind option_bind].
  split_and!.
  - apply (pearson_diag_column Quantity IZR). apply eq_IZR.
  - apply (pearson_diag_column UnitPrice Qc2R). apply Qc2R_inj.
  - apply (pearson_diag_column TotalPrice Qc2R). apply Qc2R_inj.
Qed.

(** * Further properties of the script *)

(** ** Loader: which rows are loaded, and when loading fails *)

Lemma elem_of_zip_with_Forall2 {A B C} (P : A → B → Prop) (f : A → B → C)
    (l : list A) (k : list B) (y : C) :
  Forall2 P l k →
  (∀ a b b', P a b → P a b' → b = b') →
  y ∈ zip_with f l k ↔ ∃ a b, a ∈ l ∧ P a b ∧ y = f a b.
Proof.
  intros HF Hfun. induction HF as [|a b l k Hab HF IH]; cbn.
  - split; [by intros ?%elem_of_nil|by intros (? & ? & ?%elem_of_nil & _)].
  - rewrite elem_of_cons, IH. split.
    + intros [->|(a' & b' & Ha' & HP & ->)].
      * exists a, b. split; [left|done].
      * exists a', b'. split; [by right|done].
    + intros (a' & b' & [->|Ha']%elem_of_cons & HP & ->).
      * left. by rewrite (Hfun _ _ _ HP Hab).
      * right. eauto.
Qed.

(** Membership in the loaded table. *)
Lemma elem_of_load_data (to_datetime : string → option datetime)
    (raw : list RawRow) (df : list Row) (row : Row) :
  load_data to_datetime raw = Some df →
  row ∈ df ↔
  ∃ (r : RawRow) (d : datetime),
    r ∈ raw ∧ CustomerID r ≠ None ∧ 0 < Quantity r
    ∧ to_datetime (InvoiceDate r) = Some d
    ∧ row = set_TotalPrice (set_InvoiceDate r d) (Qc_of_Z (Quantity r) * UnitPrice r)%Qc.
Proof.
  intros (dates & Hdates & ->)%load_data_unfold. cbn zeta in *.
  rewrite elem_of_drop_duplicates, elem_of_map. split.
  - intros (r' & -> & Hr').
    eapply elem_of_zip_with_Forall2 in Hr' as (r & d & Hr & Hd & ->);
      [|exact Hdates|cbn; congruence].
    apply list_elem_of_filter in Hr as [Hq Hr].
    apply list_elem_of_filter in Hr as [Hc Hr].
    exists r, d. split_and!; try done.
    + by apply bool_decide_eq_true in Hc.
    + by apply Z.ltb_lt in Hq.
  - intros (r & d & Hr & Hc & Hq & Hd & ->).
    exists (set_InvoiceDate r d). split; [done|].
    eapply elem_of_zip_with_Forall2; [exact Hdates|cbn; congruence|].
    exists r, d. split_and!; try done.
    apply list_elem_of_filter. split; [by apply Z.ltb_lt|].
    apply list_elem_of_filter. split; [by apply bool_decide_eq_true|done].
Qed.

(** The loaded rows are exactly the rows of the file that have a customer
    and a positive quantity, with their date parsed and their total price
    computed: no such row is lost and no other row gets in. *)
Theorem load_data_rows (to_datetime : string → option datetime)
    (raw : list RawRow) (df : list Row) (row : Row) :
  load_data to_datetime raw = Some df →
  row ∈ df ↔
  ∃ (r : RawRow) (d : datetime),
    r ∈ raw ∧ CustomerID r ≠ None ∧ 0 < Quantity r
    ∧ to_datetime (InvoiceDate r) = Some d
    ∧ row = set_TotalPrice (set_InvoiceDate r d) (Qc_of_Z (Quantity r) * UnitPrice r)%Qc.
Proof. apply elem_of_load_data. Qed.

Lemma load_data_rows_witness :
  load_data ex_to_datetime ex_raw = Some ex_loaded
  ∧ ∀ row, row ∈ ex_loaded ↔
      ∃ (r : RawRow) (d : datetime),
        r ∈ ex_raw ∧ CustomerID r ≠ None ∧ 0 < Quantity r
        ∧ ex_to_datetime (InvoiceDate r) = Some d
        ∧ row = set_TotalPrice (set_InvoiceDate r d)
                  (Qc_of_Z (Quantity r) * UnitPrice r)%Qc.
Proof.
  split; [vm_compute; reflexivity|]. intros row.
  apply (load_data_rows ex_to_datetime ex_raw ex_loaded row).
  vm_compute. reflexivity.
Defined.

Lemma drop_duplicates_from_seen {A} `{EqDecision A} (s1 s2 df : list A) :
  (∀ y, y ∈ s1 ↔ y ∈ s2) →
  drop_duplicates_from s1 df = drop_duplicates_from s2 df.
Proof.
  revert s1 s2. induction df as [|r df IH]; intros s1 s2 Hs; cbn; [done|].
  destruct (decide (r ∈ s1)) as [H1|H1], (decide (r ∈ s2)) as [H2|H2].
  - by apply IH.
  - destruct H2. by apply Hs.
  - destruct H1. by apply Hs.
  - f_equal. apply IH. intros y. rewrite !elem_of_cons, Hs. done.
Qed.

(** The first occurrence is the one kept. *)
Lemma drop_duplicates_cons {A} `{EqDecision A} (r : A) (df : list A) :
  drop_duplicates (r :: df) = r :: drop_duplicates (filter (λ x, x ≠ r) df).
Proof.
  unfold drop_duplicates. cbn. rewrite decide_False by apply not_elem_of_nil.
  f_equal. generalize (@nil A). induction df as [|x df IH]; intros seen; [done|].
  rewrite filter_cons. cbn [drop_duplicates_from].
  destruct (decide (x ≠ r)) as [Hx|Hx].
  - cbn [drop_duplicates_from].
    destruct (decide (x ∈ r :: seen)) as [Hin|Hin],
             (decide (x ∈ seen)) as [Hin'|Hin'].
    + apply IH.
    + apply elem_of_cons in Hin as [->|?]; done.
    + exfalso. apply Hin. by right.
    + f_equal. rewrite <- IH. apply drop_duplicates_from_seen.
      intros y. rewrite !elem_of_cons. tauto.
  - apply dec_stable in Hx as ->.
    rewrite decide_True by left. apply IH.
Qed.

(** [drop_duplicates] keeps the first occurrence of every row, in the order
    of the table: the result is a sub-sequence of the table, the first row
    stays first and the rest is the result on the later rows that differ
    from it; a table without repetition is left as it is, and applying it
    again changes nothing. *)
Theorem drop_duplicates_keeps_first {A} `{EqDecision A} (r : A) (df : list A) :
  drop_duplicates df `sublist_of` df
  ∧ drop_duplicates (r :: df) = r :: drop_duplicates (filter (λ x, x ≠ r) df)
  ∧ (NoDup df → drop_duplicates df = df)
  ∧ drop_duplicates (drop_duplicates df) = drop_duplicates df.
Proof.
  assert (∀ l : list A, NoDup l → drop_duplicates l = l) as Hfix.
  { intros l Hl. apply drop_duplicates_from_NoDup; [done|].
    intros x _. apply not_elem_of_nil. }
  split_and!.
  - apply drop_duplicates_from_sublist.
  - apply drop_duplicates_cons.
  - apply Hfix.
  - apply Hfix, NoDup_drop_duplicates.
Qed.

(** ** Filter: errors, nesting and composition *)

Lemma date_leb_refl (a : date) : date_leb a a = true.
Proof. destruct a. unfold date_leb. cbn. bool_to_Z. lia. Qed.

Lemma date_leb_antisym (a b : date) :
  date_leb a b = true → date_leb b a = true → a = b.
Proof.
  destruct a, b. unfold date_leb. cbn. intros H1 H2.
  bool_to_Z_in H1. bool_to_Z_in H2. f_equal; lia.
Qed.

Lemma date_leb_total (a b : date) : date_leb a b = true ∨ date_leb b a = true.
Proof. destruct a, b. unfold date_leb. cbn. bool_to_Z. lia. Qed.

Lemma filter_sublist_of_impl {A} (P Q : A → Prop)
    `{∀ x, Decision (P x), ∀ x, Decision (Q x)} (l : list A) :
  (∀ x, P x → Q x) → filter P l `sublist_of` filter Q l.
Proof.
  intros HPQ.
  replace (filter P l) with (filter P (filter Q l)); [apply sublist_filter|].
  rewrite list_filter_filter. apply list_filter_iff.
  intros x. split; [by intros [? _]|]. intros HP. split; [done|by apply HPQ].
Qed.

(** Narrowing the selection narrows the result: with a later start, an
    earlier end and any country, the filter returns rows the filter returns
    on the wider interval with ["All"], in the same order. *)
Theorem apply_filters_narrow (df : list Row) (start stop start' stop' : date)
    (sel : string) :
  date_leb start start' = true →
  date_leb stop' stop = true →
  ∃ wide narrow,
    apply_filters df [start; stop] "All" = Some wide
    ∧ apply_filters df [start'; stop'] sel = Some narrow
    ∧ narrow `sublist_of` wide.
Proof.
  intros Hs He. eexists _, _. rewrite !apply_filters_filter.
  split; [done|]. split; [done|].
  apply filter_sublist_of_impl. unfold in_selection.
  intros r (H1 & H2 & _). split_and!; [| |done].
  - by apply (date_leb_trans _ _ _ Hs).
  - by apply (date_leb_trans _ _ _ H2).
Qed.

Lemma apply_filters_narrow_witness :
  date_leb (mkDate 2021 1 1) (mkDate 2021 2 1) = true
  ∧ date_leb (mkDate 2021 2 28) (mkDate 2021 12 31) = true
  ∧ ∃ wide narrow,
      apply_filters ex_rows [mkDate 2021 1 1; mkDate 2021 12 31] "All" = Some wide
      ∧ apply_filters ex_rows [mkDate 2021 2 1; mkDate 2021 2 28] "FR" = Some narrow
      ∧ narrow `sublist_of` wide.
Proof.
  split; [reflexivity|]. split; [reflexivity|].
  apply (apply_filters_narrow ex_rows); reflexivity.
Defined.

(** Two filters in a row select the rows both select, so their order does
    not matter. *)
Theorem apply_filters_commute (df : list Row) (s1 e1 s2 e2 : date) (c1 c2 : string) :
  apply_filters df [s1; e1] c1 ≫= (λ out, apply_filters out [s2; e2] c2)
  = apply_filters df [s2; e2] c2 ≫= (λ out, apply_filters out [s1; e1] c1)
  ∧ apply_filters df [s1; e1] c1 ≫= (λ out, apply_filters out [s2; e2] c2)
    = Some (filter (λ r, in_selection s1 e1 c1 r ∧ in_selection s2 e2 c2 r) df).
Proof.
  rewrite !apply_filters_filter. cbn [mbind option_bind].
  rewrite !apply_filters_filter, !list_filter_filter. split; f_equal.
  - apply list_filter_iff. tauto.
  - apply list_filter_iff. tauto.
Qed.

(** An interval of one day selects the rows dated that day, whatever their
    time of day. *)
Theorem apply_filters_one_day (df : list Row) (d : date) :
  apply_filters df [d; d] "All"
  = Some (filter (λ r, dt_date (InvoiceDate r) = d) df).
Proof.
  rewrite apply_filters_filter. f_equal. apply list_filter_iff.
  intros r. unfold in_selection. split.
  - intros (H1 & H2 & _). by apply date_leb_antisym.
  - intros <-. rewrite date_leb_refl. done.
Qed.

(** The filtered table inherits what the loader guarantees: customer
    present, positive quantity, total price equal to quantity times unit
    price, and no repeated row. *)
Theorem filtered_rows_invariants (to_datetime : string → option datetime)
    (raw : list RawRow) (df out : list Row) (date_range : list date) (sel : string) :
  load_data to_datetime raw = Some df →
  apply_filters df date_range sel = Some out →
  (∀ r, r ∈ out →
     CustomerID r ≠ None
     ∧ 0 < Quantity r
     ∧ TotalPrice r = (Qc_of_Z (Quantity r) * UnitPrice r)%Qc)
  ∧ NoDup out.
Proof.
  intros Hload Hout.
  assert (out `sublist_of` df) as Hsub.
  { destruct date_range as [|start [|stop rest]]; [done..|].
    assert (apply_filters df (start :: stop :: rest) sel
            = apply_filters df [start; stop] sel) as Heq by done.
    rewrite Heq, apply_filters_filter in Hout. injection Hout as <-.
    apply sublist_filter. }
  pose proof Hload as (dates & _ & Hdf)%load_data_unfold. cbn zeta in Hdf.
  split.
  - intros r Hr. eapply elem_of_load_data in Hload as Hrows.
    apply (elem_of_sublist _ _ _ Hr) in Hsub.
    apply Hrows in Hsub as (r0 & d & _ & Hc & Hq & _ & ->). done.
  - eapply sublist_NoDup; [|exact Hsub]. rewrite Hdf. apply NoDup_drop_duplicates.
Qed.

Lemma filtered_rows_invariants_witness :
  load_data ex_to_datetime ex_raw = Some ex_loaded
  ∧ apply_filters ex_loaded [mkDate 2021 1 1; mkDate 2021 1 31] "FR" = Some ex_loaded
  ∧ (∀ r, r ∈ ex_loaded →
       CustomerID r ≠ None
       ∧ 0 < Quantity r
       ∧ TotalPrice r = (Qc_of_Z (Quantity r) * UnitPrice r)%Qc)
  ∧ NoDup ex_loaded.
Proof.
  split; [vm_compute; reflexivity|]. split; [vm_compute; reflexivity|].
  apply (filtered_rows_invariants ex_to_datetime ex_raw ex_loaded ex_loaded
           [mkDate 2021 1 1; mkDate 2021 1 31] "FR"); vm_compute; reflexivity.
Defined.

(** ** Date bounds, last update and country choices *)

Lemma datetime_leb_trans (a b c : datetime) :
  datetime_leb a b = true → datetime_leb b c = true → datetime_leb a c = true.
Proof.
  destruct a, b, c. unfold datetime_leb. cbn. intros H1 H2.
  bool_to_Z_in H1. bool_to_Z_in H2. bool_to_Z. lia.
Qed.

Lemma datetime_leb_refl (a : datetime) : datetime_leb a a = true.
Proof. destruct a. unfold datetime_leb. cbn. bool_to_Z. lia. Qed.

Lemma datetime_leb_false (a b : datetime) :
  datetime_leb a b = false → datetime_leb b a = true.
Proof.
  destruct a, b. unfold datetime_leb. cbn. intros H1.
  bool_to_Z_in H1. bool_to_Z. lia.
Qed.

(** Truncation to the day keeps the order. *)
Lemma dt_date_mono (a b : datetime) :
  datetime_leb a b = true → date_leb (dt_date a) (dt_date b) = true.
Proof.
  destruct a, b. unfold datetime_leb, date_leb. cbn. intros H1.
  bool_to_Z_in H1. bool_to_Z. lia.
Qed.

Lemma series_max_cons (t : datetime) (col : list datetime) :
  series_max (t :: col)
  = match series_max col with
    | None => Some t
    | Some m => Some (if datetime_leb m t then t else m)
    end.
Proof. reflexivity. Qed.

Lemma series_min_cons (t : datetime) (col : list datetime) :
  series_min (t :: col)
  = match series_min col with
    | None => Some t
    | Some m => Some (if datetime_leb t m then t else m)
    end.
Proof. reflexivity. Qed.

Lemma series_max_spec (col : list datetime) :
  match series_max col with
  | None => col = []
  | Some m => m ∈ col ∧ ∀ t, t ∈ col → datetime_leb t m = true
  end.
Proof.
  induction col as [|t col IH]; [done|]. rewrite series_max_cons.
  revert IH. destruct (series_max col) as [m|]; intros IH.
  - destruct IH as [Hm Hmax]. destruct (datetime_leb m t) eqn:Hmt.
    + split; [left|]. intros t' [->|Ht']%elem_of_cons.
      * apply datetime_leb_refl.
      * eapply datetime_leb_trans; [by apply Hmax|done].
    + split; [by right|]. intros t' [->|Ht']%elem_of_cons.
      * by apply datetime_leb_false.
      * by apply Hmax.
  - subst col. split; [left|]. intros t' ->%list_elem_of_singleton.
    apply datetime_leb_refl.
Qed.

Lemma series_min_spec (col : list datetime) :
  match series_min col with
  | None => col = []
  | Some m => m ∈ col ∧ ∀ t, t ∈ col → datetime_leb m t = true
  end.
Proof.
  induction col as [|t col IH]; [done|]. rewrite series_min_cons.
  revert IH. destruct (series_min col) as [m|]; intros IH.
  - destruct IH as [Hm Hmin]. destruct (datetime_leb t m) eqn:Htm.
    + split; [left|]. intros t' [->|Ht']%elem_of_cons.
      * apply datetime_leb_refl.
      * eapply datetime_leb_trans; [done|by apply Hmin].
    + split; [by right|]. intros t' [->|Ht']%elem_of_cons.
      * by apply datetime_leb_false.
      * by apply Hmin.
  - subst col. split; [left|]. intros t' ->%list_elem_of_singleton.
    apply datetime_leb_refl.
Qed.

(** Where the bounds of the dates lie. *)
Lemma date_bounds (df : list Row) :
  match min_date df, max_date df with
  | Some lo, Some hi =>
      (∃ r, r ∈ df ∧ dt_date (InvoiceDate r) = lo)
      ∧ (∃ r, r ∈ df ∧ dt_date (InvoiceDate r) = hi)
      ∧ ∀ r, r ∈ df →
          date_leb lo (dt_date (InvoiceDate r)) = true
          ∧ date_leb (dt_date (InvoiceDate r)) hi = true
  | None, None => df = []
  | _, _ => False
  end.
Proof.
  unfold min_date, max_date.
  pose proof (series_min_spec (map InvoiceDate df)) as Hmin.
  pose proof (series_max_spec (map InvoiceDate df)) as Hmax.
  revert Hmin Hmax.
  destruct (series_min (map InvoiceDate df)) as [lo|],
           (series_max (map InvoiceDate df)) as [hi|]; intros Hmin Hmax; cbn.
  - destruct Hmin as [(rlo & -> & Hrlo)%elem_of_map Hmin].
    destruct Hmax as [(rhi & -> & Hrhi)%elem_of_map Hmax].
    split_and!; [eauto..|]. intros r Hr. split; apply dt_date_mono.
    + apply Hmin, elem_of_map. eauto.
    + apply Hmax, elem_of_map. eauto.
  - rewrite Hmax in Hmin. by destruct Hmin as [?%elem_of_nil _].
  - rewrite Hmin in Hmax. by destruct Hmax as [?%elem_of_nil _].
  - by destruct df.
Qed.

(** The bounds offered to the date input: on a table with rows they are the
    dates of two rows and every row is dated between them; they are both
    [NaT] exactly on a table without rows. *)
Theorem date_bounds_spec (df : list Row) :
  match min_date df, max_date df with
  | Some lo, Some hi =>
      (∃ r, r ∈ df ∧ dt_date (InvoiceDate r) = lo)
      ∧ (∃ r, r ∈ df ∧ dt_date (InvoiceDate r) = hi)
      ∧ ∀ r, r ∈ df →
          date_leb lo (dt_date (InvoiceDate r)) = true
          ∧ date_leb (dt_date (InvoiceDate r)) hi = true
  | None, None => df = []
  | _, _ => False
  end.
Proof. apply date_bounds. Qed.

(** The initial state of the sidebar, the whole range of dates and ["All"],
    selects the whole table. *)
Theorem default_filter_all (df : list Row) :
  match min_date df, max_date df with
  | Some lo, Some hi => apply_filters df [lo; hi] "All" = Some df
  | _, _ => df = []
  end.
Proof.
  pose proof (date_bounds df) as Hb. revert Hb.
  destruct (min_date df) as [lo|], (max_date df) as [hi|]; try done.
  intros (_ & _ & Hb).
  rewrite apply_filters_filter. f_equal.
  induction df as [|r df IH]; [done|].
  rewrite filter_cons_True.
  - f_equal. apply IH. intros r' Hr'. apply Hb. by right.
  - unfold in_selection. destruct (Hb r) as [H1 H2]; [left|]. done.
Qed.

(** The caption of the page: the script stops with an error on a table
    without rows; otherwise the caption is the day of a row that no row
    comes after. *)
Theorem last_updated_spec (df : list Row) :
  match last_updated df with
  | None => df = []
  | Some s =>
      ∃ r, r ∈ df ∧ s = strftime_Ymd (InvoiceDate r)
           ∧ ∀ r', r' ∈ df → datetime_leb (InvoiceDate r') (InvoiceDate r) = true
  end.
Proof.
  unfold last_updated.
  pose proof (series_max_spec (map InvoiceDate df)) as Hmax. revert Hmax.
  destruct (series_max (map InvoiceDate df)) as [m|]; intros Hmax; cbn.
  - destruct Hmax as [(r & -> & Hr)%elem_of_map Hmax].
    exists r. split_and!; [done..|]. intros r' Hr'.
    apply Hmax, elem_of_map. eauto.
  - by destruct df.
Qed.

#[global] Instance String_leb_total : Total (rel_of String.leb).
Proof. intros a b. apply String.leb_total. Qed.

(** The choices of the country selector: ["All"] first, then each country
    of the table once, in ascending order. *)
Theorem countries_spec (df : list Row) :
  ∃ cs,
    countries df = "All"%string :: cs
    ∧ Sorted (rel_of String.leb) cs
    ∧ NoDup cs
    ∧ ∀ c, c ∈ cs ↔ ∃ r, r ∈ df ∧ Country r = c.
Proof.
  eexists. split; [reflexivity|]. unfold sorted, unique. split_and!.
  - apply Sorted_merge_sort, _.
  - rewrite merge_sort_Permutation. apply NoDup_drop_duplicates.
  - intros c. rewrite merge_sort_Permutation, elem_of_drop_duplicates, elem_of_map.
    split; [intros (r & -> & Hr)|intros (r & Hr & <-)]; eauto.
Qed.

Lemma filter_ext_in {A} (P Q : A → Prop)
    `{∀ x, Decision (P x), ∀ x, Decision (Q x)} (l : list A) :
  (∀ x, x ∈ l → P x ↔ Q x) → filter P l = filter Q l.
Proof.
  induction l as [|x l IH]; intros HPQ; [done|].
  rewrite !filter_cons, IH by (intros y Hy; apply HPQ; by right).
  destruct (decide (P x)) as [HP|HP], (decide (Q x)) as [HQ|HQ]; try done.
  - destruct HQ. apply HPQ; [left|done].
  - destruct HP. apply HPQ; [left|done].
Qed.

Lemma filter_not_nil {A} (P : A → Prop) `{∀ x, Decision (P x)} (l : list A) x :
  x ∈ l → P x → filter P l ≠ [].
Proof.
  intros Hx HP Hnil.
  assert (x ∈ filter P l) as Hxf by (by apply list_elem_of_filter).
  rewrite Hnil in Hxf. by apply elem_of_nil in Hxf.
Qed.

Lemma filter_all {A} (P : A → Prop) `{∀ x, Decision (P x)} (l : list A) :
  (∀ x, x ∈ l → P x) → filter P l = l.
Proof.
  induction l as [|x l IH]; intros HP; [done|].
  rewrite filter_cons_True by (apply HP; left).
  f_equal. apply IH. intros y Hy. apply HP. by right.
Qed.

(** Choosing a listed country, with the whole range of dates, shows the rows
    of that country, and there is at least one.  (A country whose name is
    ["All"] cannot be singled out.) *)
Theorem listed_country_selects (df : list Row) (lo hi : date) (c : string) :
  min_date df = Some lo → max_date df = Some hi →
  c ∈ countries df → c ≠ "All"%string →
  apply_filters df [lo; hi] c = Some (filter (λ r, Country r = c) df)
  ∧ filter (λ r, Country r = c) df ≠ [].
Proof.
  intros Hlo Hhi Hc Hne.
  pose proof (date_bounds df) as Hb. rewrite Hlo, Hhi in Hb.
  destruct Hb as (_ & _ & Hb). split.
  - rewrite apply_filters_filter. f_equal. apply filter_ext_in.
    intros r Hr. unfold in_selection. destruct (Hb r Hr) as [H1 H2].
    split; [by intros (_ & _ & Hsel); apply Hsel|done].
  - unfold countries, sorted, unique in Hc.
    apply elem_of_cons in Hc as [->|Hc]; [done|].
    rewrite merge_sort_Permutation, elem_of_drop_duplicates in Hc.
    apply elem_of_map in Hc as (r & Hrc & Hr). symmetry in Hrc.
    by apply (filter_not_nil _ _ r).
Qed.

Lemma listed_country_selects_witness :
  min_date ex_rows = Some (mkDate 2021 1 5)
  ∧ max_date ex_rows = Some (mkDate 2021 2 10)
  ∧ "FR"%string ∈ countries ex_rows
  ∧ "FR"%string ≠ "All"%string
  ∧ apply_filters ex_rows [mkDate 2021 1 5; mkDate 2021 2 10] "FR"
    = Some (filter (λ r, Country r = "FR"%string) ex_rows)
  ∧ filter (λ r, Country r = "FR"%string) ex_rows ≠ [].
Proof.
  assert ("FR"%string ∈ countries ex_rows) as Hin.
  { vm_compute. right. left. }
  split; [reflexivity|]. split; [reflexivity|]. split; [exact Hin|].
  split; [discriminate|].
  apply (listed_country_selects ex_rows); [reflexivity|reflexivity|exact Hin|discriminate].
Defined.

(** ** Top-10 selections: what is kept and what is left out *)

Section TopFacts.
Context {A : Type} (R : relation A) `{!RelDecision R, !Transitive R, !Total R}.

(** What [tail] leaves out of a sorted series comes before what it keeps. *)
Lemma tail_n_sorted_top (n : nat) (l s : list A) (x y : A) :
  Sorted R l → l ≡ₚ s →
  x ∈ tail_n n l → y ∈ s → y ∉ tail_n n l → R y x.
Proof.
  unfold tail_n. set (m := (length l - n)%nat).
  intros Hl%Sorted_StronglySorted Hperm Hx Hy Hny; [|done].
  rewrite <- (take_drop m l) in Hl.
  eapply StronglySorted_app_1_elem_of; [exact Hl| |exact Hx].
  assert (y ∈ l) as Hyl by (by rewrite Hperm).
  rewrite <- (take_drop m l) in Hyl. by apply elem_of_app in Hyl as [?|?].
Qed.

(** What [head] keeps of a sorted series comes before what it leaves out. *)
Lemma head_n_sorted_top (n : nat) (l s : list A) (x y : A) :
  Sorted R l → l ≡ₚ s →
  x ∈ head_n n l → y ∈ s → y ∉ head_n n l → R x y.
Proof.
  unfold head_n. intros Hl%Sorted_StronglySorted Hperm Hx Hy Hny; [|done].
  rewrite <- (take_drop n l) in Hl.
  eapply StronglySorted_app_1_elem_of; [exact Hl|exact Hx|].
  assert (y ∈ l) as Hyl by (by rewrite Hperm).
  rewrite <- (take_drop n l) in Hyl. by apply elem_of_app in Hyl as [?|?].
Qed.

Lemma tail_n_all (n : nat) (l : list A) : (length l ≤ n)%nat → tail_n n l = l.
Proof.
  intros Hlen. unfold tail_n.
  replace (length l - n)%nat with 0%nat by lia. done.
Qed.

Lemma head_n_all (n : nat) (l : list A) : (length l ≤ n)%nat → head_n n l = l.
Proof. apply take_ge. Qed.

Lemma length_tail_n_min (n : nat) (l : list A) :
  length (tail_n n l) = (n `min` length l)%nat.
Proof. unfold tail_n. rewrite length_drop. lia. Qed.
End TopFacts.

#[global] Instance Qcge_total : Total (flip Qcle).
Proof. intros a b. destruct (total Qcle a b); [right|left]; done. Qed.

#[global] Instance by_value_trans {K V} (R : relation V) `{!Transitive R} :
  Transitive (by_value (K:=K) R).
Proof. intros a b c. unfold by_value. apply transitivity. Qed.

(** The top-10 selections keep the largest groups: a product left out of
    the top products has sold no more than any product kept, and a country
    left out of either country selection has earned no more than any
    country kept; and each selection has ten groups, or all of them when
    there are fewer. *)
Theorem top10_keeps_largest (filtered_df : list Row) :
  (∀ e e', e ∈ top_products_data filtered_df → e' ∈ product_quantities filtered_df →
           e' ∉ top_products_data filtered_df → e'.2 ≤ e.2)
  ∧ (∀ e e', e ∈ top_countries_data filtered_df → e' ∈ country_sales filtered_df →
             e' ∉ top_countries_data filtered_df → (e'.2 ≤ e.2)%Qc)
  ∧ (∀ e e', e ∈ top_countries_series filtered_df → e' ∈ country_sales filtered_df →
             e' ∉ top_countries_series filtered_df → (e'.2 ≤ e.2)%Qc)
  ∧ length (top_products_data filtered_df)
    = (10 `min` length (product_quantities filtered_df))%nat
  ∧ length (top_countries_data filtered_df)
    = (10 `min` length (country_sales filtered_df))%nat
  ∧ length (top_countries_series filtered_df)
    = (10 `min` length (country_sales filtered_df))%nat.
Proof.
  split_and!.
  - intros e e' He He' Hne'. unfold top_products_data in He, Hne'.
    refine (tail_n_sorted_top (by_value Z.le) 10 _ _ e e' _ _ He He' Hne').
    + apply Sorted_sort_values_asc, _.
    + apply sort_values_asc_Permutation.
  - intros e e' He He' Hne'. unfold top_countries_data in He, Hne'.
    refine (tail_n_sorted_top (by_value Qcle) 10 _ _ e e' _ _ He He' Hne').
    + apply Sorted_sort_values_asc, _.
    + apply sort_values_asc_Permutation.
  - intros e e' He He' Hne'. unfold top_countries_series in He, Hne'.
    refine (head_n_sorted_top (by_value (flip Qcle)) 10 _ _ e e' _ _ He He' Hne').
    + apply Sorted_sort_values_desc, _.
    + apply sort_values_desc_Permutation.
  - unfold top_products_data. fold (product_quantities filtered_df).
    by rewrite length_tail_n_min, sort_values_asc_Permutation.
  - unfold top_countries_data.
    by rewrite length_tail_n_min, sort_values_asc_Permutation.
  - unfold top_countries_series, head_n.
    by rewrite length_take, sort_values_desc_Permutation.
Qed.

Lemma omap_Some_fmap {A B} (f : A → B) (l : list A) :
  omap (λ r, Some (f r)) l = map f l.
Proof. induction l as [|x l IH]; [done|]. cbn. by f_equal. Qed.

(** A series grouped on a column has as many entries as the column has
    distinct values. *)
Lemma length_agg_groupby {A K V} `{EqDecision K} (leb : K → K → bool)
    (key : A → option K) (f : list A → V) (df : list A) :
  Z.of_nat (length (agg f (groupby leb key df))) = nunique (omap key df).
Proof.
  unfold agg, groupby, nunique. rewrite !length_map.
  by rewrite merge_sort_Permutation.
Qed.

(** With at most ten countries in the filtered table nothing is left out:
    both country selections hold every country, each once, and the country
    trend keeps the row of every month and country. *)
Theorem few_countries_all_shown (filtered_df : list Row) :
  nunique (map Country filtered_df) ≤ 10 →
  top_countries_data filtered_df ≡ₚ country_sales filtered_df
  ∧ top_countries_series filtered_df ≡ₚ country_sales filtered_df
  ∧ (∀ r, r ∈ filtered_df → Country r ∈ top_countries filtered_df)
  ∧ monthly_country_sales filtered_df
    = map (λ e, (period_str e.1.1, e.1.2, e.2))
        (agg (λ g, sum_Qc (map TotalPrice g))
           (groupby month_country_leb
              (λ r, Some (dt_to_period_M (InvoiceDate r), Country r)) filtered_df)).
Proof.
  intros Hfew.
  assert (length (country_sales filtered_df) ≤ 10)%nat as Hlen.
  { assert (Z.of_nat (length (country_sales filtered_df))
            = nunique (map Country filtered_df)) as Hl; [|lia].
    rewrite <- omap_Some_fmap. apply length_agg_groupby. }
  assert (top_countries_data filtered_df ≡ₚ country_sales filtered_df) as Hdata.
  { unfold top_countries_data.
    rewrite tail_n_all by (by rewrite sort_values_asc_Permutation).
    apply sort_values_asc_Permutation. }
  assert (top_countries_series filtered_df ≡ₚ country_sales filtered_df) as Hseries.
  { unfold top_countries_series.
    rewrite head_n_all by (by rewrite sort_values_desc_Permutation).
    apply sort_values_desc_Permutation. }
  assert (∀ r, r ∈ filtered_df → Country r ∈ top_countries filtered_df) as Hall.
  { intros r Hr. unfold top_countries. rewrite Hseries. apply elem_of_map.
    exists (Country r,
            sum_Qc (map TotalPrice (filter (λ r', Country r' = Country r) filtered_df))).
    split; [done|]. unfold country_sales. apply elem_of_agg_groupby.
    rewrite filter_key_Some. split; [|done]. by exists r. }
  split_and!; [done..|].
  unfold monthly_country_sales. cbn zeta.
  rewrite (loc_mask_column (λ row : string * string * Qc, row.1.2)
             (λ c, bool_decide (c ∈ top_countries filtered_df))).
  apply filter_all.
  intros row (e & -> & He)%elem_of_map. cbn [fst snd].
  apply bool_decide_eq_true. destruct e as [[m c] v].
  apply elem_of_agg_groupby in He as [(r & Hr & [= _ Hc]) _]. cbn [fst snd].
  rewrite <- Hc. by apply Hall.
Qed.

Lemma few_countries_all_shown_witness :
  nunique (map Country ex_rows3) ≤ 10
  ∧ top_countries_data ex_rows3 ≡ₚ country_sales ex_rows3
  ∧ top_countries_series ex_rows3 ≡ₚ country_sales ex_rows3
  ∧ (∀ r, r ∈ ex_rows3 → Country r ∈ top_countries ex_rows3)
  ∧ monthly_country_sales ex_rows3
    = map (λ e, (period_str e.1.1, e.1.2, e.2))
        (agg (λ g, sum_Qc (map TotalPrice g))
           (groupby month_country_leb
              (λ r, Some (dt_to_period_M (InvoiceDate r), Country r)) ex_rows3)).
Proof.
  assert (nunique (map Country ex_rows3) ≤ 10) as Hfew by (vm_compute; discriminate).
  split; [exact Hfew|]. apply (few_countries_all_shown ex_rows3 Hfew).
Defined.

Lemma eq_of_value {K V} (s : list (K * V)) (x y : K * V) :
  NoDup s.*2 → x ∈ s → y ∈ s → x.2 = y.2 → x = y.
Proof.
  induction s as [|e s IH]; intros Hnd Hx Hy Hxy; [by apply elem_of_nil in Hx|].
  cbn in Hnd. apply NoDup_cons in Hnd as [He Hnd].
  apply elem_of_cons in Hx as [->|Hx], Hy as [->|Hy]; [done| | |by apply IH].
  - destruct He. rewrite Hxy. by apply list_elem_of_fmap_2.
  - destruct He. rewrite <- Hxy. by apply list_elem_of_fmap_2.
Qed.

(** When no two countries have the same sales, the two country selections
    agree: the countries of the trend, largest first, are the countries of
    the bar chart read from its last bar to its first. *)
Theorem top_countries_reverse (filtered_df : list Row) :
  NoDup (country_sales filtered_df).*2 →
  top_countries_series filtered_df = reverse (top_countries_data filtered_df)
  ∧ top_countries filtered_df = reverse (top_countries_data filtered_df).*1.
Proof.
  intros Hnd.
  assert (top_countries_series filtered_df = reverse (top_countries_data filtered_df))
    as Heq.
  { unfold top_countries_series, top_countries_data, head_n, tail_n.
    unfold sort_values_desc, sort_values_asc.
    assert (stable_sort (by_value Qcle) (reverse (country_sales filtered_df))
            = stable_sort (by_value Qcle) (country_sales filtered_df)) as ->.
    { apply (Sorted_unique_strong (by_value Qcle)).
      - intros x y Hx Hy Hxy Hyx. unfold by_value in Hxy, Hyx.
        rewrite stable_sort_Permutation, reverse_Permutation in Hx.
        rewrite stable_sort_Permutation in Hy.
        apply (eq_of_value (country_sales filtered_df)); [done..|].
        by apply (anti_symm Qcle).
      - apply Sorted_stable_sort, _.
      - apply Sorted_stable_sort, _.
      - by rewrite !stable_sort_Permutation, reverse_Permutation. }
    apply take_reverse. }
  split; [done|]. unfold top_countries. rewrite Heq, map_fmap.
  apply fmap_reverse.
Qed.

Lemma top_countries_reverse_witness :
  NoDup (country_sales ex_rows3).*2
  ∧ top_countries_series ex_rows3 = reverse (top_countries_data ex_rows3)
  ∧ top_countries ex_rows3 = reverse (top_countries_data ex_rows3).*1.
Proof.
  assert (NoDup (country_sales ex_rows3).*2) as Hnd.
  { apply (bool_decide_unpack _). vm_compute. exact I. }
  split; [exact Hnd|]. apply (top_countries_reverse ex_rows3 Hnd).
Defined.

(** ** Orders and customers *)

Lemma nunique_le_length {A} `{EqDecision A} (col : list A) :
  nunique col ≤ Z.of_nat (length col).
Proof.
  unfold nunique. apply Nat2Z.inj_le. apply sublist_length.
  apply drop_duplicates_from_sublist.
Qed.

Lemma nunique_pos {A} `{EqDecision A} (col : list A) : col ≠ [] → 0 < nunique col.
Proof.
  destruct col as [|x col]; [done|]. intros _. unfold nunique.
  change (drop_duplicates (x :: col)) with (drop_duplicates_from [] (x :: col)).
  cbn. rewrite decide_False by apply not_elem_of_nil. cbn. lia.
Qed.

Lemma nunique_subseteq {A} `{EqDecision A} (l k : list A) :
  l ⊆ k → nunique l ≤ nunique k.
Proof.
  intros Hlk. unfold nunique.
  apply Nat2Z.inj_le. apply submseteq_length.
  apply NoDup_submseteq; [apply NoDup_drop_duplicates|].
  intros x Hx. rewrite elem_of_drop_duplicates in Hx.
  apply elem_of_drop_duplicates. exact (Hlk x Hx).
Qed.

Lemma length_omap_le {A B} (f : A → option B) (l : list A) :
  (length (omap f l) ≤ length l)%nat.
Proof. induction l as [|x l IH]; [done|]. cbn. destruct (f x); cbn; lia. Qed.

(** The guard of the average fires exactly on the empty table: the number
    of orders is zero only when the filtered table has no row; it never
    exceeds the number of rows, nor does the number of customers. *)
Theorem total_orders_zero_iff (filtered_df : list Row) :
  (total_orders filtered_df = 0 ↔ filtered_df = [])
  ∧ 0 ≤ total_orders filtered_df ≤ Z.of_nat (length filtered_df)
  ∧ 0 ≤ total_customers filtered_df ≤ Z.of_nat (length filtered_df).
Proof.
  assert (total_orders filtered_df = 0 ↔ filtered_df = []) as Hzero.
  { split; [|by intros ->].
    intros Hz. destruct filtered_df as [|r df]; [done|].
    pose proof (nunique_pos (map InvoiceNo (r :: df))) as Hpos.
    unfold total_orders in Hz. rewrite Hz in Hpos. by destruct Hpos. }
  split_and!.
  - done.
  - apply nunique_nonneg.
  - unfold total_orders.
    pose proof (nunique_le_length (map InvoiceNo filtered_df)) as Hle.
    by rewrite length_map in Hle.
  - apply nunique_nonneg.
  - unfold total_customers, nunique_dropna.
    etrans; [apply nunique_le_length|]. apply Nat2Z.inj_le.
    etrans; [apply length_omap_le|]. by rewrite length_map.
Qed.

Lemma Sorted_weaken {A} (R R' : relation A) (l : list A) :
  (∀ a b, R a b → R' a b) → Sorted R l → Sorted R' l.
Proof.
  intros HR. induction 1 as [|x l Hl IH Hx]; constructor; [done|].
  destruct Hx; constructor. by apply HR.
Qed.

#[global] Instance Z_leb_total : Total (rel_of Z.leb).
Proof. intros a b. unfold rel_of. rewrite !Z.leb_le. lia. Qed.

Lemma omap_fmap_id {A B} (f : A → option B) (l : list A) :
  omap (λ c, c) (map f l) = omap f l.
Proof. induction l as [|x l IH]; [done|]. cbn. destruct (f x); by f_equal. Qed.

(** The series behind the histogram has one entry per customer of the
    filtered table, customers ascending and each once; the entry of a
    customer counts the distinct invoices of that customer's rows, at least
    one and at most the number of orders. *)
Theorem customer_orders_spec (filtered_df : list Row) :
  Z.of_nat (length (customer_orders filtered_df)) = total_customers filtered_df
  ∧ NoDup (customer_orders filtered_df).*1
  ∧ Sorted Z.le (customer_orders filtered_df).*1
  ∧ ∀ c n, (c, n) ∈ customer_orders filtered_df ↔
      (∃ r, r ∈ filtered_df ∧ CustomerID r = Some c)
      ∧ n = nunique (map InvoiceNo (filter (λ r, CustomerID r = Some c) filtered_df))
      ∧ 1 ≤ n ≤ total_orders filtered_df.
Proof.
  unfold customer_orders. split_and!.
  - rewrite length_agg_groupby. unfold total_customers, nunique_dropna.
    by rewrite omap_fmap_id.
  - rewrite agg_keys. apply NoDup_groupby_keys.
  - rewrite agg_keys.
    apply (Sorted_weaken (rel_of Z.leb)).
    + intros a b Hab. by apply Z.leb_le.
    + apply Sorted_groupby_keys, _.
  - intros c n. rewrite elem_of_agg_groupby. split.
    + intros [(r & Hr & Hc) ->]. split_and!; [eauto|done| |].
      * apply (proj2 (Z.le_succ_l 0 _)).
        apply nunique_pos. intros Hnil. apply fmap_nil_inv in Hnil.
        revert Hnil. by apply (filter_not_nil _ filtered_df r).
      * apply nunique_subseteq. intros i (r' & -> & Hr')%elem_of_map.
        apply elem_of_map. exists r'. split; [done|].
        by apply list_elem_of_filter in Hr' as [_ ?].
    + intros (Hr & -> & _). done.
Qed.

(** A row of the country trend carries the month as text, one of the
    selected countries, and the total price of the rows of that month and
    country; each month and selected country of the filtered table has its
    row. *)
Theorem monthly_country_sales_rows (filtered_df : list Row)
    (row : string * string * Qc) :
  row ∈ monthly_country_sales filtered_df ↔
  ∃ m c,
    (∃ r, r ∈ filtered_df ∧ dt_to_period_M (InvoiceDate r) = m ∧ Country r = c)
    ∧ c ∈ top_countries filtered_df
    ∧ row = (period_str m, c,
             sum_Qc (map TotalPrice
                       (filter (λ r, dt_to_period_M (InvoiceDate r) = m ∧ Country r = c)
                               filtered_df))).
Proof.
  unfold monthly_country_sales. cbn zeta.
  rewrite (loc_mask_column (λ row : string * string * Qc, row.1.2)
             (λ c, bool_decide (c ∈ top_countries filtered_df))).
  rewrite list_elem_of_filter, bool_decide_eq_true, elem_of_map.
  assert (∀ m c,
            filter (λ r : Row, Some (dt_to_period_M (InvoiceDate r), Country r)
                               = Some (m, c)) filtered_df
            = filter (λ r : Row, dt_to_period_M (InvoiceDate r) = m ∧ Country r = c)
                     filtered_df) as Hf.
  { intros m c. apply list_filter_iff. intros r. split.
    - by intros [= -> ->].
    - by intros [-> ->]. }
  split.
  - intros [Htop ([[m c] v] & -> & He)]. cbn [fst snd] in *.
    apply elem_of_agg_groupby in He as [(r & Hr & [= Hm Hc]) ->].
    exists m, c. rewrite Hf. split_and!; [eauto|done|done].
  - intros (m & c & (r & Hr & Hm & Hc) & Htop & ->). cbn [fst snd].
    split; [done|].
    exists (m, c, sum_Qc (map TotalPrice
                   (filter (λ r : Row, dt_to_period_M (InvoiceDate r) = m ∧ Country r = c)
                           filtered_df))).
    split; [done|]. apply elem_of_agg_groupby. rewrite Hf. split; [|done].
    exists r. by rewrite Hm, Hc.
Qed.

(** ** Hourly pattern *)

Lemma Z_leb_ne_lt (a b : Z) : rel_of Z.leb a b → a ≠ b → a < b.
Proof. unfold rel_of. rewrite Z.leb_le. lia. Qed.

#[global] Instance Z_leb_trans : Transitive (rel_of Z.leb).
Proof. intros a b c. unfold rel_of. rewrite !Z.leb_le. lia. Qed.

(** The hourly pattern has one entry per hour of day occurring in the rows,
    hours strictly ascending, and the value of an hour is the sum of the
    total prices of the rows of that hour. *)
Theorem hourly_sales_spec (filtered_df : list Row) :
  StronglySorted Z.lt (hourly_sales filtered_df).*1
  ∧ ∀ h s, (h, s) ∈ hourly_sales filtered_df ↔
      (∃ r, r ∈ filtered_df ∧ dt_hour (InvoiceDate r) = h)
      ∧ s = sum_Qc (map TotalPrice
                (filter (λ r, dt_hour (InvoiceDate r) = h) filtered_df)).
Proof.
  unfold hourly_sales. split.
  - rewrite agg_keys.
    apply (StronglySorted_NoDup_strict (rel_of Z.leb)).
    + apply Z_leb_ne_lt.
    + apply Sorted_StronglySorted; [apply _|]. apply Sorted_groupby_keys, _.
    + apply NoDup_groupby_keys.
  - intros h s. rewrite elem_of_agg_groupby, filter_key_Some. split.
    + intros [(r & Hr & [= Hh]) ->]. eauto.
    + intros [(r & Hr & Hh) ->]. split; [|done]. exists r. by rewrite Hh.
Qed.

(** ** Metrics of a filtered view *)

Lemma sublist_subseteq_map {A B} (f : A → B) (l k : list A) :
  l `sublist_of` k → map f l ⊆ map f k.
Proof.
  intros Hlk y (x & -> & Hx)%elem_of_map. apply elem_of_map.
  exists x. split; [done|]. by eapply elem_of_sublist.
Qed.

(** Filtering never raises a count: the filtered table has no more rows,
    orders or customers than the table it is taken from. *)
Theorem filtered_counts_le (df : list Row) (start stop : date) (sel : string) :
  ∃ out,
    apply_filters df [start; stop] sel = Some out
    ∧ (length out ≤ length df)%nat
    ∧ total_orders out ≤ total_orders df
    ∧ total_customers out ≤ total_customers df.
Proof.
  eexists. split; [apply apply_filters_filter|].
  assert (filter (in_selection start stop sel) df `sublist_of` df) as Hsub
    by apply sublist_filter.
  split_and!.
  - by apply sublist_length.
  - apply nunique_subseteq. by apply sublist_subseteq_map.
  - unfold total_customers, nunique_dropna. rewrite !omap_fmap_id.
    apply nunique_subseteq. intros c (r & Hr & Hc)%list_elem_of_omap.
    apply list_elem_of_omap. exists r. split; [|done]. by eapply elem_of_sublist.
Qed.

(** * The run of the script *)

(** ** Operations on the store *)

Lemma bind_done {X Y} (m : M X) (k : X → M Y) σ x σ' :
  m σ = (Done x, σ') → (m ≫= k) σ = k x σ'.
Proof. intros Hm. unfold mbind, M_bind. by rewrite Hm. Qed.

Lemma bind_raised {X Y} (m : M X) (k : X → M Y) σ line σ' :
  m σ = (Raised line, σ') → (m ≫= k) σ = (Raised line, σ').
Proof. intros Hm. unfold mbind, M_bind. by rewrite Hm. Qed.

Lemma alloc_run (t : Table) σ :
  alloc t σ = (Done (next σ), mkStore (<[next σ := t]> (heap σ)) (S (next σ))).
Proof. reflexivity. Qed.

Lemma read_run (l : loc) σ t : heap σ !! l = Some t → read l σ = (Done t, σ).
Proof. intros Hl. unfold read. by rewrite Hl. Qed.

Lemma getitem_mask_run (l : loc) bools σ t :
  heap σ !! l = Some t →
  getitem_mask l bools σ
  = (Done (next σ),
     mkStore (<[next σ := mkTable (loc_mask (t_rows t) bools)
                            (map (λ c, (c.1, loc_mask c.2 bools)) (t_added t))]>
                (heap σ))
             (S (next σ))).
Proof.
  intros Hl. unfold getitem_mask.
  by rewrite (bind_done _ _ _ _ _ (read_run _ _ _ Hl)).
Qed.

Lemma copy_run (l : loc) σ t :
  heap σ !! l = Some t →
  copy l σ = (Done (next σ), mkStore (<[next σ := t]> (heap σ)) (S (next σ))).
Proof.
  intros Hl. unfold copy. by rewrite (bind_done _ _ _ _ _ (read_run _ _ _ Hl)).
Qed.

Lemma setitem_run (l : loc) label col σ t :
  heap σ !! l = Some t →
  setitem l label col σ
  = (Done (), mkStore (<[l := mkTable (t_rows t) (set_column label col (t_added t))]>
                         (heap σ))
                      (next σ)).
Proof. intros Hl. unfold setitem. by rewrite Hl. Qed.

(** Item assignment changes one object only. *)
Lemma setitem_frame (l l' : loc) label col σ out σ' :
  setitem l label col σ = (out, σ') → l ≠ l' → heap σ' !! l' = heap σ !! l'.
Proof.
  unfold setitem. destruct (heap σ !! l) as [t|].
  - intros [= _ <-] Hne. cbn. by rewrite lookup_insert_ne.
  - by intros [= _ <-] _.
Qed.

(** Item assignment through a second name of an object changes the object:
    had [filtered_df] been bound to the object of [df], the column would
    have been added to the loaded table. *)
Lemma setitem_alias (loaded : list Row) (col : list Z) σ df :
  alloc (mkTable loaded []) empty_store = (Done df, σ) →
  ∃ σ', setitem df "Hour" col σ = (Done (), σ')
        ∧ heap σ' !! df = Some (mkTable loaded [("Hour"%string, col)]).
Proof.
  intros [= <- <-]. eexists. split.
  - apply setitem_run. apply lookup_insert_eq.
  - cbn. by rewrite lookup_insert_eq.
Qed.

Lemma px_xy_nil {X Y} (line : nat) σ :
  px_xy (X:=X) (Y:=Y) line [] [] σ = (Raised line, σ).
Proof. reflexivity. Qed.

Lemma px_xy_done {X Y} (line : nat) (x : list X) (y : list Y) σ :
  x ≠ [] → px_xy line x y σ = (Done (), σ).
Proof. by destruct x. Qed.

(** ** The values the script computes on the way *)

Lemma avg_order_value_Some (df : list Row) : is_Some (avg_order_value df).
Proof.
  unfold avg_order_value, true_div.
  destruct (0 <? total_orders df) eqn:Hpos; [|done].
  apply Z.ltb_lt in Hpos. by rewrite decide_False by lia.
Qed.

Lemma last_updated_Some (r : Row) (df : list Row) : is_Some (last_updated (r :: df)).
Proof.
  unfold last_updated.
  pose proof (series_max_spec (map InvoiceDate (r :: df))) as Hmax. revert Hmax.
  by destruct (series_max (map InvoiceDate (r :: df))).
Qed.

(** A series grouped on a column without missing value has an entry as soon
    as the frame has a row. *)
Lemma agg_groupby_not_nil {A K V} `{EqDecision K} (leb : K → K → bool)
    (key : A → K) (f : list A → V) (df : list A) :
  df ≠ [] → agg f (groupby leb (λ r, Some (key r)) df) ≠ [].
Proof.
  destruct df as [|r df]; [done|]. intros _ Hnil.
  assert ((key r, f (filter (λ r', Some (key r') = Some (key r)) (r :: df)))
          ∈ agg f (groupby leb (λ r, Some (key r)) (r :: df))) as Hin.
  { apply elem_of_agg_groupby. split; [|done]. exists r. split; [left|done]. }
  rewrite Hnil in Hin. by apply elem_of_nil in Hin.
Qed.

Lemma fmap_not_nil {A B} (f : A → B) (l : list A) : l ≠ [] → f <$> l ≠ [].
Proof. by destruct l. Qed.

Lemma tail_n_not_nil {A} (n : nat) (l : list A) : (0 < n)%nat → l ≠ [] → tail_n n l ≠ [].
Proof.
  intros Hn Hl Hnil. apply (f_equal length) in Hnil.
  rewrite length_tail_n_min in Hnil. destruct l; [done|]. cbn in Hnil. lia.
Qed.

Lemma sort_values_asc_not_nil {K V} (R : relation V) `{!RelDecision R}
    (s : list (K * V)) :
  s ≠ [] → sort_values_asc R s ≠ [].
Proof.
  intros Hs Hnil. apply Hs. apply Permutation_nil_r.
  by rewrite <- Hnil, sort_values_asc_Permutation.
Qed.

Lemma zip_fmap_omap {A B} (h : A → B) (l : list A) :
  omap (λ rh : A * B, Some rh.2) (zip l (map h l)) = omap (λ r, Some (h r)) l.
Proof. induction l as [|x l IH]; [done|]. cbn. by f_equal. Qed.

Lemma zip_fmap_filter {A B} (h : A → B) (Q : B → Prop)
    `{∀ rh : A * B, Decision (Q rh.2), ∀ r, Decision (Q (h r))} (l : list A) :
  map fst (filter (λ rh : A * B, Q rh.2) (zip l (map h l))) = filter (λ r, Q (h r)) l.
Proof.
  induction l as [|x l IH]; [done|]. cbn [map zip zip_with].
  rewrite !filter_cons. cbn [snd].
  destruct (decide (Q (h x))) as [HQ|HQ], (decide (Q (h x))) as [HQ'|HQ'];
    try done; cbn [map fst]; by rewrite IH.
Qed.

(** Grouping on the stored [Hour] column is grouping on the hour of the
    timestamp. *)
Lemma hourly_sales_by_Hour (rows : list Row) :
  hourly_sales_by rows (map dt_hour (map InvoiceDate rows)) = hourly_sales rows.
Proof.
  assert (map dt_hour (map InvoiceDate rows)
          = map (λ r : Row, dt_hour (InvoiceDate r)) rows) as -> by apply map_map.
  unfold hourly_sales_by, hourly_sales, groupby, agg.
  rewrite (zip_fmap_omap (λ r : Row, dt_hour (InvoiceDate r))).
  rewrite !map_map. apply map_ext. intros k. cbn [fst snd]. do 2 f_equal.
  etrans; [|apply (f_equal (map TotalPrice)),
             (zip_fmap_filter (λ r : Row, dt_hour (InvoiceDate r))
                (λ h, Some h = Some k) rows)].
  by rewrite map_map.
Qed.

(** ** The run *)

Ltac solve_lookup :=
  cbn [heap next];
  repeat (rewrite lookup_insert_ne by done);
  first [apply lookup_insert_eq | done].

(** C10.  The loaded table is never changed after it is loaded, however the
    run ends.  When loading fails nothing is built.  Otherwise the first
    object of the store is the loaded table, with its rows and no added
    column, at the end of the run.  The run stops only at line 61 on a table
    without rows, at line 89 on fewer than two dates, or at line 128 on a
    selection without rows, and then no object has got a column.  When the
    run ends well, the metrics and the chart aggregations shown are those of
    the selected rows, read from the object of [filtered_df], which is not
    the object of [df] and is the only one to get the [Hour] column. *)
Theorem script_preserves_df (to_datetime : string → option datetime)
    (raw : list RawRow) (date_range : list date) (sel : string) :
  match script to_datetime raw date_range sel empty_store,
        load_data to_datetime raw with
  | (out, σ), None => out = Raised 58 ∧ σ = empty_store
  | (Raised line, σ), Some loaded => stopped loaded date_range sel line σ
  | (Done pg, σ), Some loaded =>
      ∃ start stop rest,
        date_range = start :: stop :: rest
        ∧ filter (in_selection start stop sel) loaded ≠ []
        ∧ completed loaded (filter (in_selection start stop sel) loaded) pg σ
  end.
Proof.
  unfold script.
  destruct (load_data to_datetime raw) as [loaded|] eqn:Hload; cbn [lift].
  2: { rewrite (bind_raised _ _ _ 58%nat empty_store) by reflexivity. done. }
  rewrite (bind_done _ _ _ loaded empty_store) by reflexivity.
  rewrite (bind_done _ _ _ _ _ (alloc_run _ _)). cbn [next heap empty_store].
  erewrite bind_done by (apply read_run; solve_lookup). cbn [t_rows].
  destruct loaded as [|r0 loaded'].
  { (* line 61, a table without rows *)
    erewrite bind_raised by reflexivity. split_and!.
    - solve_lookup.
    - apply map_Forall_insert_2; [done|]. apply map_Forall_empty.
    - by left. }
  destruct (last_updated_Some r0 loaded') as [last Hlast]. rewrite Hlast.
  set (loaded := r0 :: loaded') in *.
  erewrite bind_done by reflexivity.
  erewrite bind_done by (apply read_run; solve_lookup).
  erewrite bind_done by (apply read_run; solve_lookup).
  destruct date_range as [|start [|stop rest]].
  { (* line 89, no date *)
    erewrite bind_raised by reflexivity. split_and!.
    - solve_lookup.
    - apply map_Forall_insert_2; [done|]. apply map_Forall_empty.
    - right. left. split_and!; [done..|cbn; lia]. }
  { (* line 89, one date *)
    erewrite bind_done by reflexivity.
    erewrite bind_raised by reflexivity. split_and!.
    - solve_lookup.
    - apply map_Forall_insert_2; [done|]. apply map_Forall_empty.
    - right. left. split_and!; [done..|cbn; lia]. }
  erewrite bind_done by reflexivity.
  erewrite bind_done by reflexivity.
  erewrite bind_done by (apply read_run; solve_lookup). cbn [t_rows].
  erewrite bind_done by (apply getitem_mask_run; solve_lookup).
  cbn [next heap t_rows t_added map].
  rewrite mask_spec, loc_mask_fmap.
  rewrite (list_filter_iff _ (in_selection start stop sel))
    by (intros r; apply bool_decide_eq_true).
  set (kept := filter (in_selection start stop sel) loaded).
  erewrite bind_done by (apply copy_run; solve_lookup). cbn [next heap].
  erewrite bind_done by (apply read_run; solve_lookup). cbn [t_rows].
  destruct (avg_order_value_Some kept) as [avg Havg]. rewrite Havg.
  erewrite bind_done by reflexivity.
  erewrite bind_done by (apply read_run; solve_lookup). cbn [t_rows].
  destruct (decide (kept = [])) as [Hkept|Hkept].
  { (* line 128, a selection without rows *)
    rewrite Hkept. erewrite bind_raised by reflexivity. split_and!.
    - solve_lookup.
    - repeat (apply map_Forall_insert_2; [done|]). apply map_Forall_empty.
    - right. right. split_and!; [done..|]. by exists start, stop, rest. }
  erewrite bind_done.
  2: { apply px_xy_done. apply fmap_not_nil, fmap_not_nil.
       by apply agg_groupby_not_nil. }
  erewrite bind_done by (apply read_run; solve_lookup). cbn [t_rows].
  erewrite bind_done by (apply read_run; solve_lookup). cbn [t_rows].
  erewrite bind_done by (apply setitem_run; solve_lookup).
  cbn [next heap t_rows t_added set_column].
  erewrite bind_done by (apply read_run; solve_lookup). cbn [t_rows t_added].
  erewrite bind_done by reflexivity.
  rewrite hourly_sales_by_Hour.
  erewrite bind_done.
  2: { apply px_xy_done. apply fmap_not_nil. by apply agg_groupby_not_nil. }
  erewrite bind_done by (apply read_run; solve_lookup). cbn [t_rows].
  erewrite bind_done.
  2: { apply px_xy_done. apply fmap_not_nil.
       apply tail_n_not_nil; [lia|]. apply sort_values_asc_not_nil.
       by apply agg_groupby_not_nil. }
  erewrite bind_done by (apply read_run; solve_lookup). cbn [t_rows].
  erewrite bind_done.
  2: { apply px_xy_done. apply fmap_not_nil.
       apply tail_n_not_nil; [lia|]. apply sort_values_asc_not_nil.
       by apply agg_groupby_not_nil. }
  erewrite bind_done by (apply read_run; solve_lookup). cbn [t_rows].
  erewrite bind_done by (apply read_run; solve_lookup). cbn [t_rows].
  exists start, stop, rest. split; [done|]. split; [done|].
  unfold completed. cbn [pg_df pg_filtered_df pg_total_sales pg_total_orders
    pg_total_customers pg_avg_order_value pg_monthly_sales pg_monthly_country_sales
    pg_hourly_sales pg_top_products_data pg_top_countries_data pg_customer_orders
    pg_corr_matrix heap].
  split_and!; done.
Qed.

(** The four ways a run stops, and a run that ends well, on the small
    file. *)
Example script_stops_at_58 :
  (script ex_to_datetime
     [mkRecord "4" [] "mug" 1 "not a date" (Qc_of_Z 10) (Some 17850) "FR" ()]
     [mkDate 2021 1 1; mkDate 2021 1 31] "All" empty_store).1
  = Raised 58.
Proof. vm_compute. reflexivity. Qed.

Example script_stops_at_61 :
  (script ex_to_datetime [] [mkDate 2021 1 1; mkDate 2021 1 31] "All" empty_store).1
  = Raised 61.
Proof. vm_compute. reflexivity. Qed.

Example script_stops_at_89 :
  (script ex_to_datetime ex_raw [mkDate 2021 1 1] "All" empty_store).1 = Raised 89.
Proof. vm_compute. reflexivity. Qed.

Example script_stops_at_128 :
  (script ex_to_datetime ex_raw [mkDate 2021 2 1; mkDate 2021 2 28] "All" empty_store).1
  = Raised 128.
Proof. vm_compute. reflexivity. Qed.

Example script_ends_well :
  match (script ex_to_datetime ex_raw [mkDate 2021 1 1; mkDate 2021 1 31] "All"
           empty_store).1 with
  | Done pg =>
      pg_df pg = 0%nat ∧ pg_filtered_df pg = 2%nat
      ∧ pg_last_updated pg = "2021-01-05"%string
      ∧ pg_total_orders pg = 1
      ∧ pg_hourly_sales pg = hourly_sales ex_loaded
  | Raised _ => False
  end.
Proof. vm_compute. split_and!; reflexivity. Qed.
